(** * ChainMindAgent: ranking aggregation and template filling

    A shallow embedding of the ranking scripts of the repository
    (fees_ranking_template_fill.py, revenue_ranking_template_fill.py,
    prediction_market_ranking_template_fill.py, dapps_ranking_template_fill.py,
    fulleco_template_fill.py, dune_bnbchain_template_fill.py) and the
    properties their specification states about them.

    Conventions.
    - A Python [int] is a [Z]; Python's integer arithmetic is exact.  The
      scripts are modelled for sources that report their metrics as
      integers; module [Float64] has the loop of [fetch_fees_data] for
      metrics reported with a fraction, which Python reads as floats
      (IEEE 754 binary64, the kernel's primitive floats here).
    - A Python value that is a [str] or [None] is an [option string]
      ([pystr]); a number or [None] is an [option Z] ([pynum]).
    - A JSON object is an association list from member names to values;
      a Python [dict] that is iterated keeps its insertion order, so
      [grouped_data] is an association list in insertion order.
    - Code that can raise returns a [result].
    - Pixel coordinates are rationals: the templates halve an odd logo
      size. *)

From Stdlib Require Import ZArith QArith List String Ascii Bool Lia.
From Stdlib Require Import Permutation Sorted.
From Stdlib Require Floats.PrimFloat.
Import ListNotations.
Open Scope string_scope.
Open Scope list_scope.
Open Scope Z_scope.

Set Implicit Arguments.

(* ================================================================== *)
(** * Python values *)
(* ================================================================== *)

Definition pystr := option string.
Definition pynum := option Z.

Definition pystr_eqb (a b : pystr) : bool :=
  match a, b with
  | Some x, Some y => String.eqb x y
  | None, None => true
  | _, _ => false
  end.

(** Truth value of a str-or-None: [None] and [""] are false. *)
Definition truthy_str (a : pystr) : bool :=
  match a with
  | Some s => negb (String.eqb s "")
  | None => false
  end.

(** Truth value of a number-or-None: [None] and [0] are false. *)
Definition truthy_num (a : pynum) : bool :=
  match a with
  | Some v => negb (v =? 0)
  | None => false
  end.

(** [a or b]. *)
Definition or_str (a b : pystr) : pystr := if truthy_str a then a else b.
Definition or_num (a b : pynum) : pynum := if truthy_num a then a else b.

(** Lookup in an association list with string keys (a JSON object). *)
Fixpoint assoc {V : Type} (k : string) (l : list (string * V)) : option V :=
  match l with
  | [] => None
  | (k', v) :: l' => if String.eqb k k' then Some v else assoc k l'
  end.

(** [d.get(k)]: [None] when the member is missing (or null). *)
Definition dict_get {V : Type} (d : list (string * option V)) (k : string)
  : option V :=
  match assoc k d with
  | Some v => v
  | None => None
  end.

(** [d.get(k, default)]: the default only when the member is missing;
    a member that is present with value null still gives [None]. *)
Definition dict_get_default {V : Type} (d : list (string * option V))
    (k : string) (default : V) : option V :=
  match assoc k d with
  | Some v => v
  | None => Some default
  end.

(* ================================================================== *)
(** * Raw protocol records (the JSON objects of the DefiLlama answers) *)
(* ================================================================== *)

(** The members of a protocol object, by type: the text members
    (parentProtocol, slug, displayName, name, logo, category), the
    numeric members (total24h, total7d, total30d, change_...), and the
    nested object chainTvls ([None] when the member is missing). *)
Record protocol := {
  text : list (string * pystr);
  number : list (string * pynum);
  chainTvls : option (list (string * pynum))
}.

(** [p.get("parentProtocol") or p.get("slug")] *)
Definition group_key (p : protocol) : pystr :=
  or_str (dict_get (text p) "parentProtocol") (dict_get (text p) "slug").

(* ================================================================== *)
(** * The grouped entries *)
(* ================================================================== *)

(** The dict built for each group key.  The three ranking scripts use
    the same shape and differ in the name of the summed member:
    [total] is "fees", "revenue" or "tvl", [max_total] is "max_fees",
    "max_revenue" or "max_tvl"; [slug] is present only in the
    prediction-market script. *)
Record entry := {
  name : pystr;
  logo : pystr;
  category : pystr;
  total : Z;
  change : pynum;
  max_total : Z;
  slug : option pystr
}.

Definition grouped := list (pystr * entry).

Fixpoint lookup (k : pystr) (g : grouped) : option entry :=
  match g with
  | [] => None
  | (k', e) :: g' => if pystr_eqb k k' then Some e else lookup k g'
  end.

(** [k in grouped_data] *)
Definition mem (k : pystr) (g : grouped) : bool :=
  existsb (fun ke => pystr_eqb k (fst ke)) g.

(** [grouped_data[k] = f(grouped_data[k])]: an update in place, which
    keeps the position of the key. *)
Definition adjust (k : pystr) (f : entry -> entry) (g : grouped) : grouped :=
  map (fun ke => if pystr_eqb k (fst ke) then (fst ke, f (snd ke)) else ke) g.

Section Merger.

(** What distinguishes the scripts: the filter of the loop together
    with the metric it reads ([Some v] when the record passes), the
    expressions for name, logo and category, the change member, and
    whether the slug is stored. *)
Variable metric : protocol -> option Z.
Variable describe : protocol -> pystr * pystr * pystr.
Variable change_of : protocol -> pynum.
Variable slug_of : protocol -> option pystr.

(** The dict literal stored for a new key. *)
Definition fresh (p : protocol) : entry :=
  let '(n, l, c) := describe p in
  {| name := n; logo := l; category := c;
     total := 0; change := Some 0; max_total := -1;
     slug := slug_of p |}.

(** [grouped_data[group_key]["fees"] += fees] *)
Definition add_total (v : Z) (e : entry) : entry :=
  {| name := name e; logo := logo e; category := category e;
     total := total e + v; change := change e; max_total := max_total e;
     slug := slug e |}.

(** The body of [if fees > grouped_data[group_key]["max_fees"]:]. *)
Definition refresh (p : protocol) (v : Z) (e : entry) : entry :=
  let '(n, l, c) := describe p in
  {| name := n; logo := l; category := c;
     total := total e; change := change_of p; max_total := v;
     slug := slug e |}.

(** One iteration of [for p in protocols]. *)
Definition fold_protocol (grouped_data : grouped) (p : protocol) : grouped :=
  match metric p with
  | None => grouped_data
  | Some v =>
      let k := group_key p in
      let g1 := if mem k grouped_data then grouped_data
                else grouped_data ++ [(k, fresh p)] in
      let g2 := adjust k (add_total v) g1 in
      adjust k (fun e => if max_total e <? v then refresh p v e else e) g2
  end.

Definition merge (protocols : list protocol) : grouped :=
  fold_left fold_protocol protocols [].

(** The two updates of one iteration, as they act on the entry of the
    record's key. *)
Definition bump (p : protocol) (v : Z) (e : entry) : entry :=
  let e' := add_total v e in
  if max_total e' <? v then refresh p v e' else e'.

End Merger.

(* ================================================================== *)
(** * The ranker: [list.sort(key=..., reverse=True)] and the cut-off *)
(* ================================================================== *)

(** Python's sort is stable, also with [reverse=True]: entries with equal
    keys keep their relative order.  There is one list that is a stable
    descending arrangement of a given list; insertion from the right
    computes it. *)
Fixpoint insert_desc (x : entry) (l : list entry) : list entry :=
  match l with
  | [] => [x]
  | y :: l' => if total x <? total y then y :: insert_desc x l'
               else x :: y :: l'
  end.

Definition sort_desc (l : list entry) : list entry :=
  fold_right insert_desc [] l.

(** [list(grouped_data.values())] *)
Definition values (g : grouped) : list entry := map snd g.

(* ================================================================== *)
(** * Exceptions and the upstream answers *)
(* ================================================================== *)

(** Subclasses of [Exception] that the modelled code can meet. *)
Inductive exn :=
| ConnectionError
| Timeout
| HTTPError (status : Z)
| JSONDecodeError
| IndexError
| AttributeError
| TypeError
| UnknownTimeZoneError.

Inductive result (A : Type) :=
| Ok (a : A)
| Raise (e : exn).
Arguments Ok {A} a.
Arguments Raise {A} e.

Definition bind {A B} (r : result A) (k : A -> result B) : result B :=
  match r with
  | Ok a => k a
  | Raise e => Raise e
  end.

Notation "x <- r ;; k" := (bind r (fun x => k))
  (at level 61, r at next level, right associativity).

(** [try: body / except Exception: handler] *)
Definition try_except {A} (body : result A) (handler : exn -> result A)
  : result A :=
  match body with
  | Ok a => Ok a
  | Raise e => handler e
  end.

(* ================================================================== *)
(** * fees_ranking_template_fill.py and revenue_ranking_template_fill.py *)
(* ================================================================== *)

(** [interval_map.get(interval, "total24h")] *)
Definition interval_field (interval : string) : string :=
  if String.eqb interval "24h" then "total24h"
  else if String.eqb interval "7d" then "total7d"
  else if String.eqb interval "30d" then "total30d"
  else "total24h".

(** [s.replace(c, by)] for a pattern of one character. *)
Fixpoint replace_char (c : ascii) (by_ : string) (s : string) : string :=
  match s with
  | EmptyString => EmptyString
  | String a s' =>
      if Ascii.eqb a c then (by_ ++ replace_char c by_ s')%string
      else String a (replace_char c by_ s')
  end.

(** [f"change_{interval.replace('d', 'over' + interval.replace('d', 'd'))}"] *)
Definition change_key (interval : string) : string :=
  ("change_" ++
   replace_char "d" ("over" ++ replace_char "d" "d" interval) interval)%string.

(** [fees = p.get(field)] under [if fees is not None and fees > 0]. *)
Definition fees_metric (interval : string) (p : protocol) : option Z :=
  match dict_get (number p) (interval_field interval) with
  | Some fees => if 0 <? fees then Some fees else None
  | None => None
  end.

(** The name, logo and category expressions of both scripts. *)
Definition fees_describe (p : protocol) : pystr * pystr * pystr :=
  (or_str (dict_get (text p) "displayName")
          (dict_get_default (text p) "name" "Unknown"%string),
   dict_get_default (text p) "logo" ""%string,
   dict_get_default (text p) "category" "N/A"%string).

Definition fees_change (interval : string) (p : protocol) : pynum :=
  dict_get_default (number p) (change_key interval) 0.

(** The loop of [fetch_fees_data] over [protocols]. *)
Definition fees_grouped (interval : string) (protocols : list protocol)
  : grouped :=
  merge (fees_metric interval) fees_describe (fees_change interval)
        (fun _ => None) protocols.

(** Sort by fees descending and take the top 10. *)
Definition fees_rank (interval : string) (protocols : list protocol)
  : list entry :=
  firstn 10 (sort_desc (values (fees_grouped interval protocols))).

(** What the slice [valid_protocols[:10]] leaves behind. *)
Definition fees_dropped (interval : string) (protocols : list protocol)
  : list entry :=
  skipn 10 (sort_desc (values (fees_grouped interval protocols))).

(** The list that [fetch_fees_data(interval)] returns.  [api] is the
    outcome of [requests.get(...)], [raise_for_status()] and [json()]: an
    exception, or the decoded object, of which only the "protocols" member
    is read ([None] when it is missing; when it is present it is a list of
    objects). *)
Definition fetch_fees_data (api : result (option (list protocol)))
    (interval : string) : list entry :=
  match api with
  | Raise _ => []
  | Ok data =>
      let protocols := match data with Some l => l | None => [] end in
      fees_rank interval protocols
  end.

(** The table that [fetch_fees_data] prints, outside its [try], before it
    returns the list: the row of an entry evaluates [p['name'][:23]] and
    formats [p['category']] with [<15], and both raise TypeError on
    None.  What the table prints is not kept. *)
Definition print_table (top_protocols : list entry) : result unit :=
  if forallb (fun p => match name p, category p with
                       | Some _, Some _ => true
                       | _, _ => false
                       end) top_protocols
  then Ok tt else Raise TypeError.

(** The call [fetch_fees_data(interval)] as a whole: the list, unless the
    table raises.  After a failed request the function returns the empty
    list before it comes to the table. *)
Definition fetch_fees_data_call (api : result (option (list protocol)))
    (interval : string) : result (list entry) :=
  let top_protocols := fetch_fees_data api interval in
  _ <- print_table top_protocols ;;
  Ok top_protocols.

(** [fetch_revenue_data] is the same text with "revenue" for "fees"; the
    URL asks for dailyRevenue.  (The file of the revenue script has a
    closing bracket too many further down, in its [run_logic]; what is
    modelled of it is the text of this function.) *)
Definition fetch_revenue_data (api : result (option (list protocol)))
    (interval : string) : list entry :=
  fetch_fees_data api interval.

(* ================================================================== *)
(** * The loop of [fetch_fees_data] on floats *)
(* ================================================================== *)

Module Float64.

Import PrimFloat.

(** [float(0)] and [float(-1)], which Python compares and adds in place
    of the ints 0 and -1 of the dict literal. *)
Definition zero : float := 0%float.
Definition minus_one : float := (-1)%float.

(** The floats nearest to 0.1, 0.2 and 0.3, as Python reads these JSON
    numbers. *)
Definition tenth : float := 0x1.999999999999ap-4%float.
Definition two_tenths : float := 0x1.999999999999ap-3%float.
Definition three_tenths : float := 0x1.3333333333333p-2%float.

(** The float nearest to 0.6, and the next float above it, which Python
    prints as 0.6000000000000001. *)
Definition six_tenths : float := 0x1.3333333333333p-1%float.
Definition six_tenths_up : float := 0x1.3333333333334p-1%float.

(** A protocol object whose numeric members are JSON numbers with a
    fraction, which [json()] reads as Python floats. *)
Record protocol := {
  text : list (string * pystr);
  number : list (string * option PrimFloat.float)
}.

(** [p.get("parentProtocol") or p.get("slug")] *)
Definition group_key (p : protocol) : pystr :=
  or_str (dict_get (text p) "parentProtocol") (dict_get (text p) "slug").

(** The value of the "change" member: the int 0 of the dict literal and of
    the default of [p.get(..., 0)], or what the record holds. *)
Inductive change_value :=
| ChangeZero
| ChangeOf (c : option PrimFloat.float).

(** The dict of a group key.  "fees" starts as the int 0 and "max_fees"
    as the int -1; the first [+=] gives [0 + fees], which Python computes
    as [float(0) + fees], and [fees > -1] compares a float with an int
    that is a float exactly, so both members are floats here with the
    same values. *)
Record entry := {
  name : pystr;
  logo : pystr;
  category : pystr;
  fees : PrimFloat.float;
  change : change_value;
  max_fees : PrimFloat.float
}.

Definition grouped := list (pystr * entry).

Fixpoint lookup (k : pystr) (g : grouped) : option entry :=
  match g with
  | [] => None
  | (k', e) :: g' => if pystr_eqb k k' then Some e else lookup k g'
  end.

Definition mem (k : pystr) (g : grouped) : bool :=
  existsb (fun ke => pystr_eqb k (fst ke)) g.

Definition adjust (k : pystr) (f : entry -> entry) (g : grouped) : grouped :=
  map (fun ke => if pystr_eqb k (fst ke) then (fst ke, f (snd ke)) else ke) g.

(** [fees = p.get(field)] under [if fees is not None and fees > 0]. *)
Definition fees_metric (interval : string) (p : protocol)
  : option PrimFloat.float :=
  match dict_get (number p) (interval_field interval) with
  | Some fees => if PrimFloat.ltb zero fees then Some fees else None
  | None => None
  end.

Definition describe (p : protocol) : pystr * pystr * pystr :=
  (or_str (dict_get (text p) "displayName")
          (dict_get_default (text p) "name" "Unknown"%string),
   dict_get_default (text p) "logo" ""%string,
   dict_get_default (text p) "category" "N/A"%string).

(** [p.get(f"change_...", 0)] *)
Definition change_of (interval : string) (p : protocol) : change_value :=
  match assoc (change_key interval) (number p) with
  | Some c => ChangeOf c
  | None => ChangeZero
  end.

Definition fresh (p : protocol) : entry :=
  let '(n, l, c) := describe p in
  {| name := n; logo := l; category := c;
     fees := zero; change := ChangeZero; max_fees := minus_one |}.

(** [grouped_data[group_key]["fees"] += fees] *)
Definition add_fees (v : PrimFloat.float) (e : entry) : entry :=
  {| name := name e; logo := logo e; category := category e;
     fees := PrimFloat.add (fees e) v; change := change e;
     max_fees := max_fees e |}.

(** The body of [if fees > grouped_data[group_key]["max_fees"]:]. *)
Definition refresh (interval : string) (p : protocol) (v : PrimFloat.float)
    (e : entry) : entry :=
  let '(n, l, c) := describe p in
  {| name := n; logo := l; category := c;
     fees := fees e; change := change_of interval p; max_fees := v |}.

(** One iteration of [for p in protocols]. *)
Definition fold_protocol (interval : string) (grouped_data : grouped)
    (p : protocol) : grouped :=
  match fees_metric interval p with
  | None => grouped_data
  | Some v =>
      let k := group_key p in
      let g1 := if mem k grouped_data then grouped_data
                else grouped_data ++ [(k, fresh p)] in
      let g2 := adjust k (add_fees v) g1 in
      adjust k (fun e => if PrimFloat.ltb (max_fees e) v
                         then refresh interval p v e else e) g2
  end.

Definition grouped_data (interval : string) (protocols : list protocol)
  : grouped :=
  fold_left (fold_protocol interval) protocols [].

(** The two updates of one iteration, as they act on the entry of the
    record's key. *)
Definition bump (interval : string) (p : protocol) (v : PrimFloat.float)
    (e : entry) : entry :=
  let e' := add_fees v e in
  if PrimFloat.ltb (max_fees e') v then refresh interval p v e' else e'.

End Float64.

(* ================================================================== *)
(** * prediction_market_ranking_template_fill.py *)
(* ================================================================== *)

(** The filter of the loop: the category test with its [continue], then
    [bsc_tvl = chain_tvls.get("Binance") or chain_tvls.get("BSC")] under
    [if bsc_tvl is not None and bsc_tvl > 100]. *)
Definition prediction_metric (p : protocol) : option Z :=
  let category := dict_get_default (text p) "category" ""%string in
  if negb (pystr_eqb category (Some "Prediction Market"%string)) then None
  else
    let chain_tvls := match chainTvls p with Some d => d | None => [] end in
    let bsc_tvl := or_num (dict_get chain_tvls "Binance")
                          (dict_get chain_tvls "BSC") in
    match bsc_tvl with
    | Some v => if 100 <? v then Some v else None
    | None => None
    end.

Definition prediction_describe (p : protocol) : pystr * pystr * pystr :=
  (dict_get_default (text p) "name" "Unknown"%string,
   dict_get_default (text p) "logo" ""%string,
   dict_get_default (text p) "category" ""%string).

Definition prediction_change (p : protocol) : pynum :=
  dict_get_default (number p) "change_1d" 0.

Definition prediction_grouped (data : list protocol) : grouped :=
  merge prediction_metric prediction_describe prediction_change
        (fun p => Some (dict_get (text p) "slug")) data.

(** [fetch_prediction_market_data()]: sorted by tvl, not cut off. *)
Definition fetch_prediction_market_data (api : result (list protocol))
  : list entry :=
  match api with
  | Raise _ => []
  | Ok data => sort_desc (values (prediction_grouped data))
  end.

(* ================================================================== *)
(** * Number formatting *)
(* ================================================================== *)

(** The text of a formatted number.  [Scaled prefix value divisor decimals
    unit] stands for the f-string [f"{prefix}{value/divisor:.{decimals}f}{unit}"];
    the digits are those Python prints for the quotient and are kept in
    this form. *)
Inductive formatted :=
| Plain (s : string)
| Scaled (prefix : string) (value divisor : Z) (decimals : nat) (unit : string).

(** The unit suffix of a formatted number. *)
Definition unit_of (f : formatted) : string :=
  match f with
  | Plain _ => ""
  | Scaled _ _ _ _ u => u
  end.

(** [format_fees(value)] of fees_ranking_template_fill.py. *)
Definition format_fees (value : pynum) : formatted :=
  match value with
  | None => Plain "$0"
  | Some v =>
      if v =? 0 then Plain "$0"
      else if 1000000 <=? v then Scaled "$" v 1000000 2 "M"
      else if 1000 <=? v then Scaled "$" v 1000 1 "K"
      else Scaled "$" v 1 0 ""
  end.

(** [format_revenue(value)] of revenue_ranking_template_fill.py: the same
    body. *)
Definition format_revenue (value : pynum) : formatted := format_fees value.

Module DuneBnbchain.

(** [format_number(value)] of dune_bnbchain_template_fill.py. *)
Definition format_number (value : pynum) : formatted :=
  match value with
  | None => Plain "0"
  | Some v =>
      if 1000000 <=? v then Scaled "" v 1000000 1 "M"
      else if 1000 <=? v then Scaled "" v 1000 1 "K"
      else Scaled "" v 1 0 ""
  end.

(** [format_currency(value)] of dune_bnbchain_template_fill.py. *)
Definition format_currency (value : pynum) : formatted :=
  match value with
  | None => Plain "$0"
  | Some v =>
      if 1000000000 <=? v then Scaled "$" v 1000000000 2 "B"
      else if 1000000 <=? v then Scaled "$" v 1000000 1 "M"
      else if 1000 <=? v then Scaled "$" v 1000 1 "K"
      else Scaled "$" v 1 2 ""
  end.

End DuneBnbchain.

Module PredictionMarket.

(** [format_number(value, prefix="$")] of
    prediction_market_ranking_template_fill.py, for a number or [None]
    (it is called on the summed tvl). *)
Definition format_number (value : pynum) (prefix : string) : formatted :=
  match value with
  | None => Plain "N/A"
  | Some v =>
      if v =? 0 then Plain "N/A"
      else if 1000000000 <=? v then Scaled prefix v 1000000000 2 "B"
      else if 1000000 <=? v then Scaled prefix v 1000000 2 "M"
      else if 1000 <=? v then Scaled prefix v 1000 1 "K"
      else Scaled prefix v 1 0 ""
  end.

End PredictionMarket.

(* ================================================================== *)
(** * Names in [merge_data] (prediction markets) *)
(* ================================================================== *)

(** Lower-casing and upper-casing of the ASCII letters; other bytes stay.
    On ASCII text [lower] is what [str.lower()] gives.  Python's
    [str.lower()] works on Unicode text and lower-cases every cased
    character; the code that calls it is modelled with the lowering
    function as a parameter, [str_lower], so that what is proved holds for
    Python's own. *)
Definition lower_ascii (c : ascii) : ascii :=
  let n := nat_of_ascii c in
  if ((65 <=? n) && (n <=? 90))%nat then ascii_of_nat (n + 32) else c.

Definition upper_ascii (c : ascii) : ascii :=
  let n := nat_of_ascii c in
  if ((97 <=? n) && (n <=? 122))%nat then ascii_of_nat (n - 32) else c.

Fixpoint map_string (f : ascii -> ascii) (s : string) : string :=
  match s with
  | EmptyString => EmptyString
  | String c s' => String (f c) (map_string f s')
  end.

Definition lower (s : string) : string := map_string lower_ascii s.
Definition upper (s : string) : string := map_string upper_ascii s.

(** One row scraped from DappBay.  The page script always gives the
    name; users and txns are [None] when the cell is missing (the
    JavaScript value is undefined, which Python receives as None under the
    key). *)
Record dappbay_row := {
  row_name : string;
  row_users : option string;
  row_txns : option string
}.

(** The loop of [fetch_dappbay_users_map] over the scraped rows; the
    newest binding of a key is in front.  [str_lower] is [str.lower()]. *)
Definition dappbay_index (str_lower : string -> string)
    (dapps : list dappbay_row) : list (string * dappbay_row) :=
  fold_left
    (fun dapp_map d =>
       if negb (String.eqb (row_name d) "") then
         let key := replace_char " " "" (str_lower (row_name d)) in
         (str_lower (row_name d), d) :: (key, d) :: dapp_map
       else dapp_map)
    dapps [].

(** An entry with the members [merge_data] adds. *)
Record merged_item := {
  item : entry;
  users : pystr;
  vol : pystr
}.

(** [merge_data(llama_data, dappbay_map)]; [item['name'].lower()] raises
    for a name that is [None].  [match.get('users', 'N/A')] is the users
    member of the row that was found, which can be None; the default
    'N/A' of the [get] is never used, since every row has the key. *)
Fixpoint merge_data (str_lower : string -> string) (llama_data : list entry)
    (dappbay_map : list (string * dappbay_row)) : result (list merged_item) :=
  match llama_data with
  | [] => Ok []
  | e :: rest =>
      match name e with
      | None => Raise AttributeError
      | Some n =>
          let name' := str_lower n in
          let key1 := replace_char " " "" name' in
          let found := match assoc name' dappbay_map with
                       | Some r => Some r
                       | None => assoc key1 dappbay_map
                       end in
          let users' := match found with
                        | Some r => row_users r
                        | None => Some "N/A"%string
                        end in
          merged <- merge_data str_lower rest dappbay_map ;;
          Ok ({| item := e; users := users'; vol := Some "N/A"%string |}
                :: merged)
      end
  end.

(* ================================================================== *)
(** * Logos: [fetch_logo_as_base64] and the DappBay logo loop *)
(* ================================================================== *)

Definition b64_alphabet : string :=
  "ABCDEFGHIJKLMNOPQRSTUVWXYZabcdefghijklmnopqrstuvwxyz0123456789+/".

Definition b64_char (n : N) : ascii :=
  match String.get (N.to_nat n) b64_alphabet with
  | Some c => c
  | None => "="%char
  end.

(** [base64.b64encode(content).decode()] on a byte string. *)
Fixpoint b64encode (content : string) : string :=
  match content with
  | String a (String b (String c rest)) =>
      let n := (N_of_ascii a * 65536 + N_of_ascii b * 256 + N_of_ascii c)%N in
      String (b64_char (n / 262144))
        (String (b64_char ((n / 4096) mod 64))
           (String (b64_char ((n / 64) mod 64))
              (String (b64_char (n mod 64)) (b64encode rest))))
  | String a (String b EmptyString) =>
      let n := (N_of_ascii a * 65536 + N_of_ascii b * 256)%N in
      String (b64_char (n / 262144))
        (String (b64_char ((n / 4096) mod 64))
           (String (b64_char ((n / 64) mod 64)) "="))
  | String a EmptyString =>
      let n := (N_of_ascii a * 65536)%N in
      String (b64_char (n / 262144))
        (String (b64_char ((n / 4096) mod 64)) "==")
  | EmptyString => EmptyString
  end.

(** What a completed HTTP request gives. *)
Record response := {
  status_code : Z;
  content_type : option string;   (* the content-type header, if sent *)
  content : string
}.

(** The network: the outcome of a GET on a URL, an exception (no
    connection, timeout, ...) or a response of any status. *)
Definition network := string -> result response.

(** [fetch_logo_as_base64(url)].  The [try] body returns [Some] text when
    it reaches its [return], and [None] when it falls through. *)
Definition fetch_logo_as_base64 (http : network) (url : pystr)
  : result string :=
  match url with
  | None => Ok ""%string
  | Some u =>
      if String.eqb u "" then Ok ""%string
      else
        returned <-
          try_except
            (resp <- http u ;;
             if status_code resp =? 200 then
               let ct := match content_type resp with
                         | Some t => t
                         | None => "image/png"%string
                         end in
               let b64 := b64encode (content resp) in
               Ok (Some ("data:" ++ ct ++ ";base64," ++ b64)%string)
             else Ok None)
            (fun _ => Ok None) ;;
        match returned with
        | Some s => Ok s
        | None => Ok ""%string
        end
  end.

Module Dapps.

(** A row of [dapps_list] as the page script builds it; [logoBase64] is
    [None] until the logo loop has set it. *)
Record dapp := {
  name : string;
  logoUrl : pystr;
  category : string;
  users : string;
  txn : string;
  change7d : string;
  logoBase64 : option string
}.

Definition set_logoBase64 (d : dapp) (b : string) : dapp :=
  {| name := name d; logoUrl := logoUrl d; category := category d;
     users := users d; txn := txn d; change7d := change7d d;
     logoBase64 := Some b |}.

(** The body of [for dapp in dapps_list] in step 5 of
    [fetch_dapps_ranking_data]. *)
Definition fetch_logo (http : network) (d : dapp) : result dapp :=
  let logo_url := logoUrl d in
  logo_b64 <-
    (if truthy_str logo_url then
       try_except
         (let u := match logo_url with Some u => u | None => ""%string end in
          let u := if String.prefix "//" u then ("https:" ++ u)%string
                   else if String.prefix "/" u
                        then ("https://dappbay.bnbchain.org" ++ u)%string
                        else u in
          resp <- http u ;;
          if status_code resp =? 200 then
            Ok ("data:image/png;base64," ++ b64encode (content resp))%string
          else Ok ""%string)
         (fun _ => Ok ""%string)
     else Ok ""%string) ;;
  Ok (set_logoBase64 d logo_b64).

(** What the page gave for a row: all members but the logo data. *)
Definition scraped (d : dapp)
  : string * pystr * string * string * string * string :=
  (name d, logoUrl d, category d, users d, txn d, change7d d).

Fixpoint fetch_logos (http : network) (dapps_list : list dapp)
  : result (list dapp) :=
  match dapps_list with
  | [] => Ok []
  | d :: rest =>
      d' <- fetch_logo http d ;;
      rest' <- fetch_logos http rest ;;
      Ok (d' :: rest')
  end.

(** The page script of step 4, which runs over the rows of the table.
    A row is given by what the script reads of it: the trimmed inner text
    of each of its cells, the trimmed inner text of the paragraph in its
    link (if there is one), and the [src] and [data-src] of its first
    image (if there is one). *)
Record table_row := {
  cells : list string;
  anchor_text : option string;
  img : option (string * pystr)
}.

(** [s.split('\n')[0]] *)
Fixpoint first_line (s : string) : string :=
  match s with
  | EmptyString => EmptyString
  | String c s' => if Ascii.eqb c "010"%char then EmptyString
                   else String c (first_line s')
  end.

(** [s || default] on JavaScript strings. *)
Definition js_or (s default : string) : string :=
  if String.eqb s "" then default else s.

(** [cells[i]?.innerText.trim()], the empty text when there is no such
    cell (every use is followed by [|| default]). *)
Definition cell (row : table_row) (i : nat) : string := nth i (cells row) "".

(** The name the script finds for a row. *)
Definition row_name (row : table_row) : string :=
  let name := js_or (first_line (cell row 2)) "" in
  if String.eqb name "" then
    js_or (match anchor_text row with Some t => t | None => "" end) ""
  else name.

(** The object pushed for a row. *)
Definition row_dapp (row : table_row) : dapp :=
  {| name := row_name row;
     logoUrl := match img row with
                | Some (src, data_src) =>
                    if String.eqb src "" then data_src else Some src
                | None => Some ""
                end;
     category := js_or (cell row 3) "N/A";
     users := js_or (cell row 4) "N/A";
     txn := js_or (cell row 6) "N/A";
     change7d := js_or (cell row 5) "0%";
     logoBase64 := None |}.

(** The loop [for (let i = 0; i < rows.length; i++)], with the rows still
    to visit and the list extracted so far. *)
Fixpoint extract_rows (rows : list table_row) (extracted : list dapp)
  : list dapp :=
  match rows with
  | [] => extracted
  | row :: rest =>
      if (10 <=? List.length extracted)%nat then extracted
      else if (List.length (cells row) <? 5)%nat
           then extract_rows rest extracted
      else
        let name := row_name row in
        if negb (String.eqb name "") && negb (String.eqb name "Unknown")
           && negb (String.eqb name "---")
        then extract_rows rest (extracted ++ [row_dapp row])
        else extract_rows rest extracted
  end.

(** Whether the loop keeps a row. *)
Definition accepts (row : table_row) : bool :=
  (5 <=? List.length (cells row))%nat
  && negb (String.eqb (row_name row) "")
  && negb (String.eqb (row_name row) "Unknown")
  && negb (String.eqb (row_name row) "---").

End Dapps.

(* ================================================================== *)
(** * The compositor of the ranking templates *)
(* ================================================================== *)

(** Template dimensions of [create_composite_image] (fees, revenue and
    prediction markets share them). *)
Definition LEFT_LOGO_X : Z := 718.
Definition RIGHT_LOGO_X : Z := 2473.
Definition LOGO_SIZE : Z := 195.
Definition RADIUS : Q := inject_Z LOGO_SIZE / 2.

Definition Y_CENTERS_LEFT : list Z := [395; 738; 1078; 1418; 1775].
Definition Y_CENTERS_RIGHT : list Z := [378; 718; 1063; 1398; 1758].

Definition Y_POSITIONS_LEFT : list Q :=
  map (fun y => inject_Z y - RADIUS)%Q Y_CENTERS_LEFT.
Definition Y_POSITIONS_RIGHT : list Q :=
  map (fun y => inject_Z y - RADIUS)%Q Y_CENTERS_RIGHT.

(** A protocol dict once [p["logoBase64"]] has been set. *)
Record with_logo := {
  base : entry;
  logoBase64 : string
}.

(** The HTML written for one protocol: the [img] tag (absent when there
    is no image source) and the text group. *)
Record slot_html := {
  logo_html : option (string * Q * Q);   (* src, left, top *)
  text_left : Q;
  text_top : Q;
  shown_name : pystr;
  shown_category : pystr;
  fees_formatted : formatted
}.

(** [seq[i]] on a Python list. *)
Definition index {A} (l : list A) (i : nat) : result A :=
  match nth_error l i with
  | Some a => Ok a
  | None => Raise IndexError
  end.

(** The body of [for i, protocol in enumerate(protocols)] after the
    [break] test. *)
Definition place (i : nat) (protocol : with_logo) : result slot_html :=
  let is_left := (i <? 5)%nat in
  let row_idx := if is_left then i else (i - 5)%nat in
  let center_x := if is_left then LEFT_LOGO_X else RIGHT_LOGO_X in
  let logo_left := (inject_Z center_x - RADIUS)%Q in
  logo_top <- (if is_left then index Y_POSITIONS_LEFT row_idx
               else index Y_POSITIONS_RIGHT row_idx) ;;
  let text_left' := (inject_Z center_x + inject_Z LOGO_SIZE / 2
                     + inject_Z 50)%Q in
  let img_src := or_str (or_str (Some (logoBase64 protocol))
                                (logo (base protocol)))
                        (Some ""%string) in
  let logo_html' :=
    if truthy_str img_src then
      match img_src with
      | Some src => Some (src, logo_left, logo_top)
      | None => None
      end
    else None in
  Ok {| logo_html := logo_html';
        text_left := text_left';
        text_top := logo_top;
        shown_name := name (base protocol);
        shown_category := category (base protocol);
        fees_formatted := format_fees (Some (total (base protocol))) |}.

(** The loop, started at index [i]. *)
Fixpoint compose_from (i : nat) (protocols : list with_logo)
  : result (list slot_html) :=
  match protocols with
  | [] => Ok []
  | protocol :: rest =>
      if (10 <=? i)%nat then Ok []          (* if i >= 10: break *)
      else
        h <- place i protocol ;;
        hs <- compose_from (S i) rest ;;
        Ok (h :: hs)
  end.

(** The logo loop at the head of [create_composite_image]. *)
Fixpoint attach_logos (http : network) (protocols : list entry)
  : result (list with_logo) :=
  match protocols with
  | [] => Ok []
  | p :: rest =>
      b <- fetch_logo_as_base64 http (logo p) ;;
      rest' <- attach_logos http rest ;;
      Ok ({| base := p; logoBase64 := b |} :: rest')
  end.

(** [create_composite_image(protocols, ...)] up to the HTML of the slots;
    the rendering engine takes it from there. *)
Definition create_composite_image (http : network) (protocols : list entry)
  : result (list slot_html) :=
  ps <- attach_logos http protocols ;;
  compose_from 0 ps.

Module Fulleco.

(** A protocol of one category of [fetch_fulleco_data]'s result. *)
Record protocol := {
  name : string;
  users : string;
  uc : string;
  txs : string;
  tc : string;
  logoBase64 : string
}.

Definition Y_GAP : Z := 215.

(** [get_grid_centers(x, y_start)]: a list of (cy, cx) centres. *)
Definition get_grid_centers (x y_start : Z) : list (Z * Z) :=
  [(y_start, x); (y_start + Y_GAP, x); (y_start + 2 * Y_GAP, x)].

Definition DEFI_CENTERS : list (Z * Z) :=
  map (fun i => (630 + i * 230, 560)) [0; 1; 2; 3; 4; 5].

Definition LAYOUT : list (string * list (Z * Z)) :=
  [("defi"%string, DEFI_CENTERS);
   ("games"%string, get_grid_centers 1500 630);
   ("social"%string, get_grid_centers 2440 630);
   ("nfts"%string, get_grid_centers 3380 630);
   ("ai"%string, get_grid_centers 1500 1580);
   ("infra"%string, get_grid_centers 2440 1580);
   ("rwa"%string, get_grid_centers 3380 1580)].

Definition BLOCK_WIDTH : Z := 750.
Definition RADIUS : Z := 80.
Definition CIRCLE_SIZE : Z := 160.

(** The logo of an item: the image, or the first letter of the name. *)
Inductive logo_html :=
| Img (src : string)
| Initial (letter : ascii).

Record item_html := {
  logo : logo_html;
  circle_x : Z;
  circle_y : Z;
  text_x : Z;
  text_y : Z;
  shown : protocol
}.

(** The body of [for i, p in enumerate(protocols)] after the [break]
    test; [p["name"][0]] raises on an empty name. *)
Definition place (centers : list (Z * Z)) (i : nat) (p : protocol)
  : result item_html :=
  c <- index centers i ;;
  let '(cy, cx) := c in
  let circle_x' := cx - BLOCK_WIDTH / 2 in
  let circle_y' := cy - RADIUS in
  let text_x' := circle_x' + CIRCLE_SIZE + 40 in
  logo' <- (if negb (String.eqb (logoBase64 p) "") then
              Ok (Img (logoBase64 p))
            else
              match name p with
              | String c0 _ => Ok (Initial c0)
              | EmptyString => Raise IndexError
              end) ;;
  Ok {| logo := logo'; circle_x := circle_x'; circle_y := circle_y';
        text_x := text_x'; text_y := cy - 65; shown := p |}.

Fixpoint compose_from (centers : list (Z * Z)) (i : nat)
    (protocols : list protocol) : result (list item_html) :=
  match protocols with
  | [] => Ok []
  | p :: rest =>
      if (List.length centers <=? i)%nat then Ok []
      else
        h <- place centers i p ;;
        hs <- compose_from centers (S i) rest ;;
        Ok (h :: hs)
  end.

End Fulleco.

(* ================================================================== *)
(** * Caption and result envelope of fees_ranking_template_fill.py *)
(* ================================================================== *)

(** [enumerate(l)] *)
Definition enumerate {A} (l : list A) : list (nat * A) :=
  combine (seq 0 (List.length l)) l.

(** The caption: the fixed text around the date, the interval label and
    one line [f"{i+1}. {p['name']} ({format_fees(p['fees'])})"] per
    protocol. *)
Record caption := {
  caption_date : string;
  caption_interval : string;
  caption_lines : list (nat * pystr * formatted)
}.

(** [get_caption_text(protocols, date_str, interval)] *)
Definition get_caption_text (protocols : list entry) (date_str : string)
    (interval : string) : caption :=
  let interval_label :=
    if String.eqb interval "24h" then "24H"%string
    else if String.eqb interval "7d" then "7D"%string
    else if String.eqb interval "30d" then "30D"%string
    else upper interval in
  {| caption_date := date_str;
     caption_interval := interval_label;
     caption_lines :=
       map (fun ip => (S (fst ip), name (snd ip),
                       format_fees (Some (total (snd ip)))))
           (enumerate (firstn 10 protocols)) |}.

(** Values of the members of the printed JSON object. *)
Inductive json_value :=
| JNull
| JString (s : string)
| JCaption (c : caption)
| JProtocols (l : list entry).

Definition envelope := list (string * json_value).

(** What [run_logic] prints itself. *)
Inductive printed :=
| Line (s : string)
| CaptionText (c : caption)
| JsonDumps (e : envelope).

(** The reading of the clock: [now_tz.isoformat()] and
    [now_tz.strftime("%d %B %Y")]. *)
Record clock_reading := {
  isoformat : string;
  date_str : string
}.

(** [run_logic(interval, timezone, json_output, text_only)].  [api] is
    the upstream answer; [clock] is [datetime.now(pytz.timezone(timezone))],
    which raises for an unknown timezone name.  What [fetch_fees_data]
    prints (progress and the table) is not part of the result; an
    exception of the table is, since nothing catches it.  [json.dumps] is applied to dicts of str, int, None and lists of such
    dicts only, which it serialises, so the [except] of step 3 is not
    entered. *)
Definition run_logic (api : result (option (list protocol)))
    (clock : result clock_reading) (interval : string) (json_output : bool)
  : result (list printed) :=
  protocols <- fetch_fees_data_call api interval ;;
  match protocols with
  | [] =>
      if json_output then
        Ok [Line "---JSON_START---";
            JsonDumps [("error"%string, JString "Failed to fetch data")];
            Line "---JSON_END---"]
      else Ok [Line "[ERROR] Failed to fetch data."]
  | _ :: _ =>
      now_tz <- clock ;;
      let caption := get_caption_text protocols (date_str now_tz) interval in
      if json_output then
        Ok [Line "---JSON_START---";
            JsonDumps [("image"%string, JNull);
                       ("caption"%string, JCaption caption);
                       ("timestamp"%string, JString (isoformat now_tz));
                       ("interval"%string, JString interval);
                       ("data"%string, JProtocols protocols)];
            Line "---JSON_END---"]
      else
        Ok [Line "[INFO] Done (Text Only).";
            Line "
CAPTION:";
            CaptionText caption]
  end.

Module DappsRun.

(** [get_caption_text(dapps, date_str)] of dapps_ranking_template_fill.py:
    the date and the lines [f"{i+1}. {d['name']}"]. *)
Definition get_caption_text (dapps : list Dapps.dapp) (date_str : string)
  : string * list (nat * string) :=
  (date_str,
   map (fun id => (S (fst id), Dapps.name (snd id)))
       (enumerate (firstn 10 dapps))).

Inductive json_value :=
| JNull
| JString (s : string)
| JCaption (c : string * list (nat * string))
| JDapps (l : list Dapps.dapp).

Inductive printed :=
| Line (s : string)
| CaptionText (c : string * list (nat * string))
| JsonDumps (e : list (string * json_value)).

(** [run_logic(timezone, json_output, text_only)]; [dapps] is what
    [fetch_dapps_ranking_data()] returned. *)
Definition run_logic (dapps : list Dapps.dapp)
    (clock : result clock_reading) (json_output : bool)
  : result (list printed) :=
  match dapps with
  | [] =>
      if json_output then
        Ok [Line "---JSON_START---";
            JsonDumps [("error"%string, JString "Failed to fetch data")];
            Line "---JSON_END---"]
      else Ok [Line "[ERROR] Failed to fetch data."]
  | _ :: _ =>
      now_tz <- clock ;;
      let caption := get_caption_text dapps (date_str now_tz) in
      if json_output then
        Ok [Line "---JSON_START---";
            JsonDumps [("image"%string, JNull);
                       ("caption"%string, JCaption caption);
                       ("timestamp"%string, JString (isoformat now_tz));
                       ("data"%string, JDapps (firstn 15 dapps))];
            Line "---JSON_END---"]
      else
        Ok [Line "[INFO] Done (Text Only).";
            Line "
CAPTION:";
            CaptionText caption]
  end.

End DappsRun.

(** [sum(l)] *)
Definition sum (l : list Z) : Z := fold_right Z.add 0 l.

(* ================================================================== *)
(** * What the specification says, in its own words *)
(* ================================================================== *)

(** The value a record contributes: its metric when it passes the
    filter. *)
Definition metric_value (metric : protocol -> option Z) (p : protocol) : Z :=
  match metric p with
  | Some v => v
  | None => 0
  end.

(** Whether a record passes the filter of the loop. *)
Definition passes (metric : protocol -> option Z) (p : protocol) : bool :=
  match metric p with
  | Some _ => true
  | None => false
  end.

(** The order of the ranker: the metric, descending. *)
Definition total_ge (a b : entry) : Prop := total b <= total a.

(** The records that contribute to the entity of key [k], in input
    order. *)
Definition contributing (metric : protocol -> option Z) (k : pystr)
    (protocols : list protocol) : list protocol :=
  filter (fun p => match metric p with
                   | Some _ => pystr_eqb (group_key p) k
                   | None => false
                   end) protocols.


(** What holds of the entry of a key after the records that contribute to
    it, [c]: its total is the sum of the contributions, and its
    description is that of the first record whose metric is the largest
    (all records before it are strictly smaller, none after it is
    larger). *)
Definition entry_ok (metric : protocol -> option Z)
    (describe : protocol -> pystr * pystr * pystr)
    (c : list protocol) (e : entry) : Prop :=
  total e = sum (map (metric_value metric) c) /\
  exists l1 r l2,
    c = l1 ++ r :: l2 /\
    Forall (fun x => metric_value metric x < metric_value metric r) l1 /\
    Forall (fun x => metric_value metric x <= metric_value metric r) l2 /\
    max_total e = metric_value metric r /\
    (name e, logo e, category e) = describe r.

(** The keys of a sequence in the order of their first occurrence. *)
Definition add_key (ks : list pystr) (k : pystr) : list pystr :=
  if existsb (pystr_eqb k) ks then ks else ks ++ [k].

Definition first_seen (ks : list pystr) : list pystr :=
  fold_left add_key ks [].

(** The order the specification asks of the leaderboard: the metric
    descending, ties broken by the display name ascending (strings are
    compared by code units, as Python compares them). *)
Definition name_leb (a b : pystr) : bool :=
  match a, b with
  | Some x, Some y => String.leb x y
  | None, _ => true
  | Some _, None => false
  end.

Definition spec_before (a b : entry) : Prop :=
  total b < total a \/ (total a = total b /\ name_leb (name a) (name b) = true).

Definition spec_ranked (limit : nat) (l : list entry) : Prop :=
  (List.length l <= limit)%nat /\ StronglySorted spec_before l.

(** The identity key of the specification: the explicit group key when
    the source supplies one, otherwise the display name case-folded and
    with its whitespace collapsed away. *)
Definition is_space (c : ascii) : bool :=
  let n := nat_of_ascii c in
  ((n =? 32) || ((9 <=? n) && (n <=? 13)))%nat.

Fixpoint drop_spaces (s : string) : string :=
  match s with
  | EmptyString => EmptyString
  | String c s' => if is_space c then drop_spaces s'
                   else String c (drop_spaces s')
  end.

Definition normalized_name (s : string) : string := drop_spaces (lower s).

Definition spec_identity_key (p : protocol) : pystr :=
  if truthy_str (dict_get (text p) "parentProtocol")
  then dict_get (text p) "parentProtocol"
  else match fst (fst (fees_describe p)) with
       | Some n => Some (normalized_name n)
       | None => None
       end.

(** The member an interval reads: total24h for "24h" and for every
    interval that is not "7d" or "30d". *)
Definition reads (interval field : string) : Prop :=
  (interval = "7d" /\ field = "total7d") \/
  (interval = "30d" /\ field = "total30d") \/
  (interval <> "7d" /\ interval <> "30d" /\ field = "total24h").

(** The key of a record, from its members: parentProtocol unless it is
    missing, null or empty, and then slug. *)
Definition parent_or_slug (members : list (string * pystr)) : pystr :=
  match dict_get members "parentProtocol" with
  | Some parent => if String.eqb parent "" then dict_get members "slug"
                   else Some parent
  | None => dict_get members "slug"
  end.

(** The value a record reports under the member [field] (0 when it
    reports none). *)
Definition reported (field : string) (p : protocol) : Z :=
  match dict_get (number p) field with
  | Some v => v
  | None => 0
  end.

(** The records of key [k] that report a positive value under [field],
    in input order, and the values they report. *)
Definition records_of (field : string) (k : pystr)
    (protocols : list protocol) : list protocol :=
  filter (fun p => pystr_eqb (parent_or_slug (text p)) k &&
                   (0 <? reported field p))
         protocols.

Definition positive_reports (field : string) (k : pystr)
    (protocols : list protocol) : list Z :=
  map (reported field) (records_of field k protocols).

(** The positive values that all records report under [field]. *)
Definition all_positive_reports (field : string)
    (protocols : list protocol) : list Z :=
  map (reported field) (filter (fun p => 0 <? reported field p) protocols).

(** The same for records whose values are floats. *)
Definition float_reported (field : string) (p : Float64.protocol)
  : PrimFloat.float :=
  match dict_get (Float64.number p) field with
  | Some v => v
  | None => Float64.zero
  end.

Definition float_records_of (field : string) (k : pystr)
    (protocols : list Float64.protocol) : list Float64.protocol :=
  filter (fun p => pystr_eqb (parent_or_slug (Float64.text p)) k &&
                   PrimFloat.ltb Float64.zero (float_reported field p))
         protocols.

Definition float_reports (field : string) (k : pystr)
    (protocols : list Float64.protocol) : list PrimFloat.float :=
  map (float_reported field) (float_records_of field k protocols).

(** The sum of floats as the loop takes it: from 0, left to right. *)
Definition float_sum (vs : list PrimFloat.float) : PrimFloat.float :=
  fold_left PrimFloat.add vs Float64.zero.

(** The TVL on BNB chain that a record reports: the member Binance of
    chainTvls unless it is missing, null or zero, and then the member BSC
    (0 when there is none). *)
Definition bnb_tvl (p : protocol) : Z :=
  match chainTvls p with
  | None => 0
  | Some d =>
      let bsc := match dict_get d "BSC" with Some w => w | None => 0 end in
      match dict_get d "Binance" with
      | Some v => if v =? 0 then bsc else v
      | None => bsc
      end
  end.

(** Whether the category of a record is "Prediction Market". *)
Definition is_prediction_market (p : protocol) : bool :=
  pystr_eqb (dict_get (text p) "category") (Some "Prediction Market").

(** The prediction markets of key [k] with a TVL on BNB chain above 100,
    in input order. *)
Definition markets_of (k : pystr) (data : list protocol) : list protocol :=
  filter (fun p => pystr_eqb (parent_or_slug (text p)) k &&
                   (is_prediction_market p && (100 <? bnb_tvl p)))
         data.

(** The unit ladder of the specification. *)
Definition spec_unit (v : Z) : string :=
  if 1000000000 <=? v then "B"
  else if 1000000 <=? v then "M"
  else if 1000 <=? v then "K"
  else "".

(** The divisor that goes with a unit, and the divisor of a formatted
    number. *)
Definition unit_divisor (u : string) : Z :=
  if String.eqb u "B" then 1000000000
  else if String.eqb u "M" then 1000000
  else if String.eqb u "K" then 1000
  else 1.

Definition divisor_of (f : formatted) : Z :=
  match f with
  | Plain _ => 1
  | Scaled _ _ d _ _ => d
  end.

(** The ladder without the billion step. *)
Definition unit_up_to_million (v : Z) : string :=
  if 1000000 <=? v then "M"
  else if 1000 <=? v then "K"
  else "".

(** The centre of slot [row] of column [col] of the ranking templates. *)
Definition slot_center_x (col : nat) : Z :=
  match col with
  | O => LEFT_LOGO_X
  | _ => RIGHT_LOGO_X
  end.

Definition slot_center_y (col row : nat) : Z :=
  nth row (match col with O => Y_CENTERS_LEFT | _ => Y_CENTERS_RIGHT end) 0.

(** The member names of an envelope. *)
Definition members {V} (e : list (string * V)) : list string := map fst e.

(* ================================================================== *)
(** * Concrete inputs *)
(* ================================================================== *)

(** A protocol object with the members the fees script reads. *)
Definition mk_protocol (parentProtocol slug displayName : pystr)
    (total24h : pynum) : protocol :=
  {| text := [("parentProtocol"%string, parentProtocol);
              ("slug"%string, slug);
              ("displayName"%string, displayName)];
     number := [("total24h"%string, total24h)];
     chainTvls := None |}.

(** Example 1 of the specification: A:100, A:50, B:80. *)
Definition example_1 : list protocol :=
  [mk_protocol (Some "A") (Some "a-v1") (Some "A one") (Some 100);
   mk_protocol (Some "A") (Some "a-v2") (Some "A two") (Some 50);
   mk_protocol (Some "B") (Some "b") (Some "B") (Some 80)]%string.

Definition example_1_permuted : list protocol :=
  [mk_protocol (Some "B") (Some "b") (Some "B") (Some 80);
   mk_protocol (Some "A") (Some "a-v2") (Some "A two") (Some 50);
   mk_protocol (Some "A") (Some "a-v1") (Some "A one") (Some 100)]%string.

(** Three versions of one parent with fees 0.1, 0.2 and 0.3 (the
    floats nearest to them), and the same records in reverse. *)
Definition float_record (slug : string) (v : PrimFloat.float)
  : Float64.protocol :=
  {| Float64.text := [("parentProtocol", Some "A"); ("slug", Some slug);
                      ("displayName", Some slug)];
     Float64.number := [("total24h", Some v)] |}.

Definition example_floats : list Float64.protocol :=
  [float_record "a-v1" Float64.tenth;
   float_record "a-v2" Float64.two_tenths;
   float_record "a-v3" Float64.three_tenths].

Definition example_floats_reversed : list Float64.protocol :=
  [float_record "a-v3" Float64.three_tenths;
   float_record "a-v2" Float64.two_tenths;
   float_record "a-v1" Float64.tenth].

(** Four records of one parent: the largest is the second, the third
    ties with it, the last is smaller. *)
Definition example_versions : list protocol :=
  [mk_protocol (Some "A") (Some "a-v1") (Some "small") (Some 50);
   mk_protocol (Some "A") (Some "a-v2") (Some "large") (Some 100);
   mk_protocol (Some "A") (Some "a-v3") (Some "late tie") (Some 100);
   mk_protocol (Some "A") (Some "a-v4") (Some "last") (Some 70)]%string.

(** Two protocols with the same fees, the one named B listed first. *)
Definition example_tie : list protocol :=
  [mk_protocol None (Some "b") (Some "B") (Some 5);
   mk_protocol None (Some "a") (Some "A") (Some 5)]%string.

(** Example 2 of the specification: no parent, names that differ in
    case and spacing only. *)
Definition example_pancake : list protocol :=
  [mk_protocol None (Some "pancake-swap") (Some "Pancake Swap") (Some 100);
   mk_protocol None (Some "pancakeswap") (Some "pancakeswap") (Some 50)]%string.

(** Eleven protocols of their own, with fees 11 down to 1. *)
Definition example_eleven : list protocol :=
  map (fun sv => mk_protocol None (Some (fst sv)) (Some (fst sv))
                             (Some (snd sv)))
      [("p01", 11); ("p02", 10); ("p03", 9); ("p04", 8); ("p05", 7);
       ("p06", 6); ("p07", 5); ("p08", 4); ("p09", 3); ("p10", 2);
       ("p11", 1)].

(** Scraped rows: one with a name in two words, one without a name, one
    without a users cell. *)
Definition example_rows : list dappbay_row :=
  [{| row_name := "Pancake Swap"; row_users := Some "1.2K";
      row_txns := Some "9K" |};
   {| row_name := ""; row_users := Some "7"; row_txns := None |};
   {| row_name := "Opinion Labs"; row_users := None; row_txns := None |}].

(** A merged entity with a name, and one whose name is [None]. *)
Definition example_named (n : string) : entry :=
  {| name := Some n; logo := Some ""; category := Some "Prediction Market";
     total := 500; change := Some 0; max_total := 500;
     slug := Some (Some "s") |}.

Definition example_unnamed : entry :=
  {| name := None; logo := Some ""; category := Some "Prediction Market";
     total := 400; change := Some 0; max_total := 400;
     slug := Some (Some "u") |}.

(** Four protocols of one category of the ecosystem view. *)
Definition example_category : list Fulleco.protocol :=
  map (fun n => {| Fulleco.name := n; Fulleco.users := "1K";
                   Fulleco.uc := "+1%"; Fulleco.txs := "2K";
                   Fulleco.tc := "-1%"; Fulleco.logoBase64 := "" |})
      ["Venus"; "Lista"; "Aster"; "Thena"].

(** A prediction market with a small TVL under Binance and a large one
    under BSC. *)
Definition example_small_binance : protocol :=
  {| text := [("category", Some "Prediction Market"); ("name", Some "Mkt")];
     number := [];
     chainTvls := Some [("Binance", Some 50); ("BSC", Some 1000)] |}.

(** A table of twelve rows of which three are loading skeletons. *)
Definition example_table_row (n : string) : Dapps.table_row :=
  {| Dapps.cells := ["1"; ""; n; "DeFi"; "1.2K"; "+3%"; "9K"];
     Dapps.anchor_text := None;
     Dapps.img := Some ("//cdn.example/logo.png", None) |}.

Definition example_table : list Dapps.table_row :=
  map example_table_row
      ["a"; "b"; "---"; "c"; "d"; ""; "e"; "f"; "Unknown"; "g"; "h"; "i"].

(** Two versions of one prediction market, the second with the larger
    TVL. *)
Definition example_markets : list protocol :=
  [{| text := [("category", Some "Prediction Market");
               ("parentProtocol", Some "parent#m");
               ("slug", Some "m-v1"); ("name", Some "M one")];
      number := [];
      chainTvls := Some [("Binance", Some 200)] |};
   {| text := [("category", Some "Prediction Market");
               ("parentProtocol", Some "parent#m");
               ("slug", Some "m-v2"); ("name", Some "M two")];
      number := [];
      chainTvls := Some [("Binance", Some 900)] |}].

(** Two prediction markets of their own with the same TVL, the one named
    Zed listed first, and a third with a larger TVL. *)
Definition example_market (slug name : string) (tvl : Z) : protocol :=
  {| text := [("category", Some "Prediction Market");
              ("slug", Some slug); ("name", Some name)];
     number := [];
     chainTvls := Some [("Binance", Some tvl)] |}.

Definition example_market_tie : list protocol :=
  [example_market "zed" "Zed" 500; example_market "abe" "Abe" 500;
   example_market "top" "Top" 900].

(** A protocol whose category is null in the upstream answer. *)
Definition example_null_category : protocol :=
  {| text := [("slug", Some "n"); ("name", Some "N"); ("category", None)];
     number := [("total24h", Some 7)];
     chainTvls := None |}.

(** A record without the metric, and one that reports zero. *)
Definition not_reported : protocol :=
  mk_protocol None (Some "c") (Some "C") None.

Definition reported_zero : protocol :=
  mk_protocol None (Some "c") (Some "C") (Some 0).

(** A network in which one logo is served, one is missing and every
    other host times out. *)
Definition example_network : network :=
  fun u =>
    if String.eqb u "https://icons.example/ok.png" then
      Ok {| status_code := 200; content_type := Some "image/png";
            content := "Man" |}
    else if String.eqb u "https://icons.example/missing.png" then
      Ok {| status_code := 404; content_type := None; content := "" |}
    else Raise Timeout.

(** Twelve ranked entries with totals 12 down to 1, for the compositor. *)
Definition example_entry (n : Z) : entry :=
  {| name := Some "P"; logo := Some ""; category := Some "Dexs";
     total := n; change := Some 0; max_total := n; slug := None |}.

Definition example_twelve : list with_logo :=
  map (fun n => {| base := example_entry n; logoBase64 := "" |})
      [12; 11; 10; 9; 8; 7; 6; 5; 4; 3; 2; 1].

(** A ranked entry whose logo data was fetched. *)
Definition example_with_data : with_logo :=
  {| base := example_entry 12; logoBase64 := "data:image/png;base64,TWFu" |}.

(** A clock that can be read. *)
Definition example_clock : result clock_reading :=
  Ok {| isoformat := "2026-01-01T00:00:00+00:00";
        date_str := "01 January 2026" |}.

(* ================================================================== *)
(** * Facts about the grouped entries *)
(* ================================================================== *)

Lemma pystr_eqb_spec (a b : pystr) : reflect (a = b) (pystr_eqb a b).
Proof.
  destruct a as [x|], b as [y|]; simpl; try (constructor; congruence).
  destruct (String.eqb_spec x y); constructor; congruence.
Qed.

Lemma pystr_eqb_refl (k : pystr) : pystr_eqb k k = true.
Proof. destruct (pystr_eqb_spec k k); congruence. Qed.

Lemma pystr_eqb_sym (a b : pystr) : pystr_eqb a b = pystr_eqb b a.
Proof.
  destruct (pystr_eqb_spec a b), (pystr_eqb_spec b a); congruence.
Qed.

Lemma lookup_adjust k f k' g :
  lookup k' (adjust k f g) =
  if pystr_eqb k k' then option_map f (lookup k' g) else lookup k' g.
Proof.
  induction g as [|[k0 e] g IH]; simpl.
  - destruct (pystr_eqb k k'); reflexivity.
  - destruct (pystr_eqb_spec k k0) as [->|Hn]; simpl.
    + destruct (pystr_eqb_spec k' k0) as [->|Hn'].
      * rewrite pystr_eqb_refl. reflexivity.
      * exact IH.
    + destruct (pystr_eqb_spec k' k0) as [->|Hn'].
      * destruct (pystr_eqb_spec k k0); [congruence|reflexivity].
      * exact IH.
Qed.

Lemma lookup_snoc k g k' e :
  lookup k (g ++ [(k', e)]) =
  match lookup k g with
  | Some x => Some x
  | None => if pystr_eqb k k' then Some e else None
  end.
Proof.
  induction g as [|[k0 e0] g IH]; simpl; [reflexivity|].
  destruct (pystr_eqb k k0); [reflexivity|exact IH].
Qed.

Lemma mem_lookup k g :
  mem k g = match lookup k g with Some _ => true | None => false end.
Proof.
  unfold mem. induction g as [|[k0 e0] g IH]; simpl; [reflexivity|].
  destruct (pystr_eqb k k0); [reflexivity|exact IH].
Qed.

Lemma mem_keys k g : mem k g = existsb (pystr_eqb k) (map fst g).
Proof.
  unfold mem. induction g as [|ke g IH]; simpl; [reflexivity|].
  now rewrite IH.
Qed.

Lemma keys_adjust k f g : map fst (adjust k f g) = map fst g.
Proof.
  unfold adjust. rewrite map_map. apply map_ext.
  intros ke. destruct (pystr_eqb k (fst ke)); reflexivity.
Qed.

Lemma sum_app l1 l2 : sum (l1 ++ l2) = sum l1 + sum l2.
Proof. induction l1 as [|x l1 IH]; simpl; [reflexivity|]. lia. Qed.

Lemma sum_Permutation l l' : Permutation l l' -> sum l = sum l'.
Proof. induction 1; simpl; lia. Qed.

Lemma filter_Permutation {A} (f : A -> bool) l l' :
  Permutation l l' -> Permutation (filter f l) (filter f l').
Proof.
  induction 1 as [|x l l' _ IH|x y l|l l' l'' _ IH1 _ IH2]; simpl.
  - constructor.
  - destruct (f x); [constructor|]; exact IH.
  - destruct (f x), (f y); try reflexivity. constructor.
  - etransitivity; eassumption.
Qed.

Section MergerFacts.

Variable metric : protocol -> option Z.
Variable describe : protocol -> pystr * pystr * pystr.
Variable change_of : protocol -> pynum.
Variable slug_of : protocol -> option pystr.

(** The filter lets through only records above a threshold [lo >= 0]. *)
Variable lo : Z.
Hypothesis lo_nonneg : 0 <= lo.
Hypothesis metric_above : forall p v, metric p = Some v -> lo < v.

Let step := fold_protocol metric describe change_of slug_of.
Let merged := merge metric describe change_of slug_of.

Lemma lookup_fold_protocol g p k :
  lookup k (step g p) =
  match metric p with
  | None => lookup k g
  | Some v =>
      if pystr_eqb (group_key p) k then
        Some (bump describe change_of p v (match lookup k g with
                        | Some e => e
                        | None => fresh describe slug_of p
                        end))
      else lookup k g
  end.
Proof.
  unfold step, fold_protocol. destruct (metric p) as [v|]; [|reflexivity].
  cbv zeta. rewrite !lookup_adjust.
  destruct (pystr_eqb_spec (group_key p) k) as [<-|Hn].
  - rewrite mem_lookup.
    destruct (lookup (group_key p) g) as [e|] eqn:E.
    + rewrite E. reflexivity.
    + rewrite lookup_snoc, E, pystr_eqb_refl. reflexivity.
  - destruct (mem (group_key p) g); [reflexivity|].
    rewrite lookup_snoc. destruct (lookup k g); [reflexivity|].
    destruct (pystr_eqb_spec k (group_key p)); congruence.
Qed.

Lemma merged_snoc ps p : merged (ps ++ [p]) = step (merged ps) p.
Proof. unfold merged, merge. now rewrite fold_left_app. Qed.

Lemma contributing_snoc k ps p :
  contributing metric k (ps ++ [p]) =
  contributing metric k ps ++
  match metric p with
  | Some _ => if pystr_eqb (group_key p) k then [p] else []
  | None => []
  end.
Proof.
  unfold contributing. rewrite filter_app. simpl.
  destruct (metric p); [|reflexivity].
  destruct (pystr_eqb (group_key p) k); reflexivity.
Qed.

Lemma merge_invariant ps k :
  match lookup k (merged ps) with
  | Some e => entry_ok metric describe (contributing metric k ps) e
  | None => contributing metric k ps = []
  end.
Proof.
  induction ps as [|p ps IH] using rev_ind; [reflexivity|].
  rewrite merged_snoc, lookup_fold_protocol, contributing_snoc.
  destruct (metric p) as [v|] eqn:Hm.
  2:{ rewrite app_nil_r. exact IH. }
  assert (Hv : metric_value metric p = v)
    by (unfold metric_value; now rewrite Hm).
  assert (Hpos : lo < v) by eauto.
  destruct (pystr_eqb (group_key p) k).
  2:{ rewrite app_nil_r. exact IH. }
  destruct (lookup k (merged ps)) as [e|].
  - destruct IH as (Ht & l1 & r & l2 & Hc & H1 & H2 & Hmax & Hd).
    unfold entry_ok, bump. rewrite map_app, sum_app. simpl map. simpl sum.
    simpl max_total. destruct (Z.ltb_spec (max_total e) v) as [Hlt|Hge].
    + unfold refresh. destruct (describe p) as [[n l] c] eqn:Hdp. simpl.
      split; [lia|].
      exists (l1 ++ r :: l2), p, []. rewrite Hc. repeat split; auto.
      * rewrite Forall_app. split; [|constructor].
        -- eapply Forall_impl; [|exact H1]. simpl. intros; lia.
        -- lia.
        -- eapply Forall_impl; [|exact H2]. simpl. intros; lia.
    + simpl. split; [lia|].
      exists l1, r, (l2 ++ [p]). rewrite Hc, <- app_assoc. simpl.
      repeat split; auto.
      rewrite Forall_app. split; [exact H2|]. constructor; [lia|constructor].
  - rewrite IH. unfold entry_ok, bump, fresh.
    destruct (describe p) as [[n l] c] eqn:Hdp. simpl.
    destruct (Z.ltb_spec (-1) v) as [_|Hge]; [|lia].
    unfold refresh. rewrite Hdp. simpl. split; [lia|].
    exists [], p, []. repeat split; auto.
Qed.

Lemma fold_protocol_skip g p : metric p = None -> step g p = g.
Proof. intros H. unfold step, fold_protocol. now rewrite H. Qed.

(** A record that does not pass the filter leaves no trace. *)
Lemma merged_skip ps1 p ps2 :
  metric p = None -> merged (ps1 ++ p :: ps2) = merged (ps1 ++ ps2).
Proof.
  intros H. unfold merged, merge. rewrite !fold_left_app. simpl.
  fold step. now rewrite (fold_protocol_skip _ H).
Qed.

Lemma keys_fold_protocol g p :
  map fst (step g p) =
  match metric p with
  | Some _ => add_key (map fst g) (group_key p)
  | None => map fst g
  end.
Proof.
  unfold step, fold_protocol, add_key.
  destruct (metric p); [|reflexivity].
  cbv zeta. rewrite !keys_adjust, mem_keys.
  destruct (existsb _ _); [reflexivity|].
  rewrite map_app. reflexivity.
Qed.

Lemma keys_fold_left ps g :
  map fst (fold_left step ps g) =
  fold_left add_key (map group_key (filter (passes metric) ps)) (map fst g).
Proof.
  revert g. induction ps as [|p ps IH]; intros g; simpl; [reflexivity|].
  rewrite IH, keys_fold_protocol. unfold passes.
  destruct (metric p); reflexivity.
Qed.

(** The entities are the distinct keys of the records that pass, in
    the order in which the keys first occur. *)
Lemma merged_keys ps :
  map fst (merged ps) =
  first_seen (map group_key (filter (passes metric) ps)).
Proof. unfold merged, merge. fold step. now rewrite keys_fold_left. Qed.

Lemma totals_fold_protocol g p :
  Forall (fun ke => lo < total (snd ke)) g ->
  Forall (fun ke => lo < total (snd ke)) (step g p).
Proof.
  intros Hg. unfold step, fold_protocol.
  destruct (metric p) as [v|] eqn:Hm; [|exact Hg].
  apply metric_above in Hm. cbv zeta.
  unfold adjust. rewrite map_map. apply Forall_map.
  assert (Hold : Forall
    (fun x => lo < total (snd
       (if pystr_eqb (group_key p)
             (fst (if pystr_eqb (group_key p) (fst x)
                   then (fst x, add_total v (snd x)) else x))
        then (fst (if pystr_eqb (group_key p) (fst x)
                   then (fst x, add_total v (snd x)) else x),
              if max_total (snd (if pystr_eqb (group_key p) (fst x)
                   then (fst x, add_total v (snd x)) else x)) <? v
              then refresh describe change_of p v
                     (snd (if pystr_eqb (group_key p) (fst x)
                           then (fst x, add_total v (snd x)) else x))
              else snd (if pystr_eqb (group_key p) (fst x)
                        then (fst x, add_total v (snd x)) else x))
        else if pystr_eqb (group_key p) (fst x)
             then (fst x, add_total v (snd x)) else x))) g).
  { eapply Forall_impl; [|exact Hg]. intros [k e] He. simpl in *.
    destruct (pystr_eqb (group_key p) k) eqn:E; simpl; rewrite ?E; simpl;
      [|exact He].
    destruct (max_total e <? v); simpl; [|lia].
    unfold refresh. destruct (describe p) as [[n l] c]. simpl. lia. }
  destruct (mem (group_key p) g); [exact Hold|].
  rewrite Forall_app. split; [exact Hold|].
  constructor; [|constructor]. simpl. rewrite pystr_eqb_refl. simpl.
  rewrite pystr_eqb_refl. unfold fresh, refresh.
  destruct (describe p) as [[n l] c]. simpl.
  destruct (-1 <? v); simpl; lia.
Qed.

(** Every entry of the merge has a total above the threshold. *)
Lemma merged_totals ps :
  Forall (fun ke => lo < total (snd ke)) (merged ps).
Proof.
  induction ps as [|p ps IH] using rev_ind; [constructor|].
  rewrite merged_snoc. now apply totals_fold_protocol.
Qed.

End MergerFacts.

(* ================================================================== *)
(** * Facts about the ranker *)
(* ================================================================== *)

Lemma insert_desc_Permutation x l : Permutation (insert_desc x l) (x :: l).
Proof.
  induction l as [|y l IH]; simpl; [reflexivity|].
  destruct (total x <? total y); [|reflexivity].
  rewrite IH. constructor.
Qed.

Lemma sort_desc_Permutation l : Permutation (sort_desc l) l.
Proof.
  induction l as [|x l IH]; simpl; [reflexivity|].
  rewrite insert_desc_Permutation. now constructor.
Qed.

Lemma insert_desc_sorted x l :
  StronglySorted total_ge l -> StronglySorted total_ge (insert_desc x l).
Proof.
  induction 1 as [|y l Hs IH Hall]; simpl.
  - repeat constructor.
  - destruct (Z.ltb_spec (total x) (total y)) as [Hlt|Hge].
    + constructor; [exact IH|].
      eapply Permutation_Forall.
      * symmetry. apply insert_desc_Permutation.
      * constructor; [unfold total_ge; lia|exact Hall].
    + constructor; [constructor; assumption|].
      constructor; [exact Hge|].
      eapply Forall_impl; [|exact Hall]. unfold total_ge. intros; lia.
Qed.

Lemma sort_desc_sorted l : StronglySorted total_ge (sort_desc l).
Proof.
  induction l as [|x l IH]; simpl; [constructor|].
  now apply insert_desc_sorted.
Qed.

(** Sorting a list that is in order leaves it as it is. *)
Lemma sort_desc_id l : StronglySorted total_ge l -> sort_desc l = l.
Proof.
  induction 1 as [|x l Hs IH Hall]; simpl; [reflexivity|].
  rewrite IH. destruct l as [|y l]; [reflexivity|]. simpl.
  inversion Hall as [|? ? Hxy _]; subst. unfold total_ge in Hxy.
  destruct (Z.ltb_spec (total x) (total y)); [lia|reflexivity].
Qed.

Lemma firstn_sorted n l :
  StronglySorted total_ge l -> StronglySorted total_ge (firstn n l).
Proof.
  intros H. revert n. induction H as [|x l Hs IH Hall]; intros [|n]; simpl;
    try constructor.
  - apply IH.
  - rewrite Forall_forall in *. intros y Hy. apply Hall.
    rewrite <- (firstn_skipn n l). apply in_or_app. now left.
Qed.

(** The sort is stable: the entries of one total keep their order. *)
Lemma insert_desc_stable t x l :
  filter (fun e => total e =? t) (insert_desc x l) =
  filter (fun e => total e =? t) (x :: l).
Proof.
  induction l as [|y l IH]; [reflexivity|]. simpl insert_desc.
  destruct (Z.ltb_spec (total x) (total y)) as [Hlt|Hge]; [|reflexivity].
  simpl in *. rewrite IH.
  destruct (Z.eqb_spec (total x) t), (Z.eqb_spec (total y) t);
    try reflexivity. lia.
Qed.

Lemma sort_desc_stable t l :
  filter (fun e => total e =? t) (sort_desc l) =
  filter (fun e => total e =? t) l.
Proof.
  induction l as [|x l IH]; [reflexivity|]. simpl sort_desc.
  rewrite insert_desc_stable. simpl. now rewrite IH.
Qed.

(* ================================================================== *)
(** * The filters of the three scripts *)
(* ================================================================== *)

Lemma fees_metric_above interval p v :
  fees_metric interval p = Some v -> 0 < v.
Proof.
  unfold fees_metric.
  destruct (dict_get (number p) (interval_field interval)) as [f|];
    [|discriminate].
  destruct (Z.ltb_spec 0 f); [|discriminate].
  intros [= <-]. assumption.
Qed.

Lemma prediction_metric_above p v :
  prediction_metric p = Some v -> 100 < v.
Proof.
  unfold prediction_metric. cbv zeta.
  destruct (negb _); [discriminate|].
  destruct (or_num _ _) as [f|]; [|discriminate].
  destruct (Z.ltb_spec 100 f); [|discriminate].
  intros [= <-]. assumption.
Qed.

Lemma fees_metric_none interval p :
  dict_get (number p) (interval_field interval) = None ->
  fees_metric interval p = None.
Proof. unfold fees_metric. now intros ->. Qed.

Lemma fees_metric_nonpositive interval p v :
  dict_get (number p) (interval_field interval) = Some v -> v <= 0 ->
  fees_metric interval p = None.
Proof.
  unfold fees_metric. intros -> Hv.
  destruct (Z.ltb_spec 0 v); [lia|reflexivity].
Qed.

(** The total of a key, for any of the scripts. *)
Lemma merged_total_sum metric describe change_of slug_of lo :
  0 <= lo -> (forall p v, metric p = Some v -> lo < v) ->
  forall protocols k,
    option_map total
      (lookup k (merge metric describe change_of slug_of protocols)) =
    match contributing metric k protocols with
    | [] => None
    | c => Some (sum (map (metric_value metric) c))
    end.
Proof.
  intros Hlo Habove protocols k.
  pose proof (merge_invariant metric describe change_of slug_of Hlo Habove
                protocols k) as H.
  destruct (lookup k _) as [e|]; simpl.
  - destruct H as (Ht & l1 & r & l2 & Hc & _).
    destruct (contributing metric k protocols) as [|c0 c].
    + destruct l1; discriminate.
    + now rewrite Ht.
  - now rewrite H.
Qed.

Lemma contributing_Permutation metric k ps ps' :
  Permutation ps ps' ->
  Permutation (contributing metric k ps) (contributing metric k ps').
Proof. apply filter_Permutation. Qed.

Lemma merged_total_Permutation metric describe change_of slug_of lo :
  0 <= lo -> (forall p v, metric p = Some v -> lo < v) ->
  forall protocols protocols' k,
    Permutation protocols protocols' ->
    option_map total
      (lookup k (merge metric describe change_of slug_of protocols')) =
    option_map total
      (lookup k (merge metric describe change_of slug_of protocols)).
Proof.
  intros Hlo Habove ps ps' k Hp.
  rewrite !(@merged_total_sum metric describe change_of slug_of lo Hlo Habove).
  pose proof (@contributing_Permutation metric k ps ps' Hp) as Hc.
  destruct (contributing metric k ps) as [|a c].
  - apply Permutation_nil in Hc. now rewrite Hc.
  - destruct (contributing metric k ps') as [|a' c'].
    + symmetry in Hc. apply Permutation_nil in Hc. discriminate.
    + f_equal. apply sum_Permutation. symmetry.
      now apply Permutation_map.
Qed.

(* ================================================================== *)
(** * Sums of the additive metric *)
(* ================================================================== *)

Lemma interval_field_reads interval field :
  reads interval field -> interval_field interval = field.
Proof.
  unfold reads, interval_field.
  intros [[-> ->]|[[-> ->]|(H7 & H30 & ->)]]; try reflexivity.
  destruct (String.eqb_spec interval "24h"); [reflexivity|].
  destruct (String.eqb_spec interval "7d"); [contradiction|].
  destruct (String.eqb_spec interval "30d"); [contradiction|reflexivity].
Qed.

Lemma group_key_parent_or_slug (members : list (string * pystr)) :
  or_str (dict_get members "parentProtocol") (dict_get members "slug") =
  parent_or_slug members.
Proof.
  unfold or_str, truthy_str, parent_or_slug.
  destruct (dict_get members "parentProtocol") as [s|]; [|reflexivity].
  destruct (String.eqb s ""); reflexivity.
Qed.

Lemma fees_metric_reported interval p :
  fees_metric interval p =
  if 0 <? reported (interval_field interval) p
  then Some (reported (interval_field interval) p) else None.
Proof.
  unfold fees_metric, reported. destruct (dict_get _ _); reflexivity.
Qed.

(** The records that contribute to a key, read off their members, for a
    filter [ok] and a value [val]. *)
Lemma contributing_filter metric (ok : protocol -> bool) (val : protocol -> Z)
    k ps :
  (forall p, metric p = if ok p then Some (val p) else None) ->
  contributing metric k ps =
    filter (fun p => pystr_eqb (parent_or_slug (text p)) k && ok p) ps /\
  Forall (fun x => metric_value metric x = val x /\ ok x = true)
         (contributing metric k ps).
Proof.
  intros H. split.
  - unfold contributing. apply filter_ext. intros p. rewrite H.
    unfold group_key. rewrite group_key_parent_or_slug.
    destruct (ok p); [now rewrite andb_true_r|now rewrite andb_false_r].
  - apply Forall_forall. intros x Hx. unfold contributing in Hx.
    apply filter_In in Hx. destruct Hx as [_ Hx]. unfold metric_value.
    rewrite H in *. destruct (ok x); [auto|discriminate].
Qed.

Lemma fees_contributing_records interval k ps :
  contributing (fees_metric interval) k ps =
    records_of (interval_field interval) k ps /\
  Forall (fun x => metric_value (fees_metric interval) x =
                     reported (interval_field interval) x /\
                   (0 <? reported (interval_field interval) x) = true)
         (contributing (fees_metric interval) k ps).
Proof.
  apply (@contributing_filter (fees_metric interval)
           (fun p => 0 <? reported (interval_field interval) p)
           (reported (interval_field interval)) k ps).
  apply fees_metric_reported.
Qed.

Lemma fees_contributions_reports interval k ps :
  map (metric_value (fees_metric interval))
      (contributing (fees_metric interval) k ps) =
  positive_reports (interval_field interval) k ps.
Proof.
  destruct (fees_contributing_records interval k ps) as [Hc Hv].
  unfold positive_reports. rewrite <- Hc.
  apply map_ext_Forall. eapply Forall_impl; [|exact Hv].
  intros x [Hx _]. exact Hx.
Qed.

(** The same loop on floats. *)
Lemma float_lookup_adjust k f k' g :
  Float64.lookup k' (Float64.adjust k f g) =
  if pystr_eqb k k' then option_map f (Float64.lookup k' g)
  else Float64.lookup k' g.
Proof.
  induction g as [|[k0 e] g IH]; simpl.
  - destruct (pystr_eqb k k'); reflexivity.
  - destruct (pystr_eqb_spec k k0) as [->|Hn]; simpl.
    + destruct (pystr_eqb_spec k' k0) as [->|Hn'].
      * rewrite pystr_eqb_refl. reflexivity.
      * exact IH.
    + destruct (pystr_eqb_spec k' k0) as [->|Hn'].
      * destruct (pystr_eqb_spec k k0); [congruence|reflexivity].
      * exact IH.
Qed.

Lemma float_lookup_snoc k g k' e :
  Float64.lookup k (g ++ [(k', e)]) =
  match Float64.lookup k g with
  | Some x => Some x
  | None => if pystr_eqb k k' then Some e else None
  end.
Proof.
  induction g as [|[k0 e0] g IH]; simpl; [reflexivity|].
  destruct (pystr_eqb k k0); [reflexivity|exact IH].
Qed.

Lemma float_mem_lookup k g :
  Float64.mem k g =
  match Float64.lookup k g with Some _ => true | None => false end.
Proof.
  unfold Float64.mem. induction g as [|[k0 e0] g IH]; simpl; [reflexivity|].
  destruct (pystr_eqb k k0); [reflexivity|exact IH].
Qed.

Lemma float_lookup_fold_protocol interval g p k :
  Float64.lookup k (Float64.fold_protocol interval g p) =
  match Float64.fees_metric interval p with
  | None => Float64.lookup k g
  | Some v =>
      if pystr_eqb (Float64.group_key p) k then
        Some (Float64.bump interval p v
                (match Float64.lookup k g with
                 | Some e => e
                 | None => Float64.fresh p
                 end))
      else Float64.lookup k g
  end.
Proof.
  unfold Float64.fold_protocol.
  destruct (Float64.fees_metric interval p) as [v|]; [|reflexivity].
  cbv zeta. rewrite !float_lookup_adjust.
  destruct (pystr_eqb_spec (Float64.group_key p) k) as [<-|Hn].
  - rewrite float_mem_lookup.
    destruct (Float64.lookup (Float64.group_key p) g) as [e|] eqn:E.
    + rewrite E. reflexivity.
    + rewrite float_lookup_snoc, E, pystr_eqb_refl. reflexivity.
  - destruct (Float64.mem (Float64.group_key p) g); [reflexivity|].
    rewrite float_lookup_snoc. destruct (Float64.lookup k g); [reflexivity|].
    destruct (pystr_eqb_spec k (Float64.group_key p)); congruence.
Qed.

Lemma float_fees_bump interval p v e :
  Float64.fees (Float64.bump interval p v e) =
  PrimFloat.add (Float64.fees e) v.
Proof.
  unfold Float64.bump. cbv zeta.
  destruct (PrimFloat.ltb _ v); [|reflexivity].
  unfold Float64.refresh. destruct (Float64.describe p) as [[n l] c].
  reflexivity.
Qed.

Lemma float_fees_fresh p : Float64.fees (Float64.fresh p) = Float64.zero.
Proof.
  unfold Float64.fresh. destruct (Float64.describe p) as [[n l] c].
  reflexivity.
Qed.

Lemma float_fees_metric_reported interval p :
  Float64.fees_metric interval p =
  if PrimFloat.ltb Float64.zero (float_reported (interval_field interval) p)
  then Some (float_reported (interval_field interval) p) else None.
Proof.
  unfold Float64.fees_metric, float_reported.
  destruct (dict_get _ _); reflexivity.
Qed.

Lemma float_reports_snoc field k ps p :
  float_reports field k (ps ++ [p]) =
  float_reports field k ps ++
  (if pystr_eqb (parent_or_slug (Float64.text p)) k &&
      PrimFloat.ltb Float64.zero (float_reported field p)
   then [float_reported field p] else []).
Proof.
  unfold float_reports, float_records_of. rewrite filter_app, map_app.
  simpl. destruct (_ && _); reflexivity.
Qed.

Lemma float_sum_snoc vs v :
  float_sum (vs ++ [v]) = PrimFloat.add (float_sum vs) v.
Proof. unfold float_sum. now rewrite fold_left_app. Qed.

(** The fees of a key on floats: the reported values added one after the
    other, in input order, starting from 0. *)
Lemma float_merged_fees interval ps k :
  option_map Float64.fees
    (Float64.lookup k (Float64.grouped_data interval ps)) =
  match float_reports (interval_field interval) k ps with
  | [] => None
  | vs => Some (float_sum vs)
  end.
Proof.
  induction ps as [|p ps IH] using rev_ind; [reflexivity|].
  unfold Float64.grouped_data in *. rewrite fold_left_app. simpl fold_left.
  rewrite float_lookup_fold_protocol, float_reports_snoc,
    float_fees_metric_reported.
  unfold Float64.group_key. rewrite group_key_parent_or_slug.
  set (f := interval_field interval) in *.
  destruct (PrimFloat.ltb Float64.zero (float_reported f p)).
  2:{ rewrite andb_false_r, app_nil_r. exact IH. }
  rewrite andb_true_r.
  destruct (pystr_eqb (parent_or_slug (Float64.text p)) k).
  2:{ rewrite app_nil_r. exact IH. }
  cbn [option_map]. rewrite float_fees_bump.
  destruct (Float64.lookup k _) as [e|]; cbn [option_map] in IH.
  - destruct (float_reports f k ps) as [|a vs]; [discriminate|].
    injection IH as IH. rewrite IH, <- float_sum_snoc. reflexivity.
  - destruct (float_reports f k ps) as [|a vs]; [|discriminate].
    rewrite float_fees_fresh. reflexivity.
Qed.

(** Against C1 as stated: three records of one key report 0.1, 0.2 and
    0.3.  In this order their merged fees are 0.6000000000000001, in the
    reverse order they are 0.6: on floats the merged value is neither the
    exact sum nor the same for every permutation of the input. *)
Lemma float_fees_depend_on_the_order :
  Permutation example_floats example_floats_reversed /\
  option_map Float64.fees
    (Float64.lookup (Some "A") (Float64.grouped_data "24h" example_floats))
    = Some Float64.six_tenths_up /\
  option_map Float64.fees
    (Float64.lookup (Some "A")
       (Float64.grouped_data "24h" example_floats_reversed))
    = Some Float64.six_tenths /\
  PrimFloat.ltb Float64.six_tenths Float64.six_tenths_up = true /\
  Float64.six_tenths_up <> Float64.six_tenths.
Proof.
  split; [exact (Permutation_rev example_floats)|].
  split; [vm_compute; reflexivity|].
  split; [vm_compute; reflexivity|].
  split; [vm_compute; reflexivity|].
  intros H.
  assert (E : PrimFloat.eqb Float64.six_tenths_up Float64.six_tenths = true)
    by (rewrite H; vm_compute; reflexivity).
  vm_compute in E. discriminate.
Qed.

(** C1, amended.  When the records report their fees (revenue) as
    integers, the fees of the entity of an identity key are the exact sum
    of the positive values that the records of that key (parentProtocol,
    or slug when there is none) report under the member of the interval
    (the key has an entity exactly when there is such a record), and they
    are the same for every permutation of the input.  When the records
    report floats, the fees are the float sum of these values taken from
    0 in input order, one addition per record. *)
Theorem merged_fees_are_the_sum_of_integer_reports :
  forall (interval field : string) (k : pystr),
    reads interval field ->
    (forall protocols : list protocol,
       option_map total (lookup k (fees_grouped interval protocols)) =
         match positive_reports field k protocols with
         | [] => None
         | vs => Some (sum vs)
         end /\
       forall protocols',
         Permutation protocols protocols' ->
         option_map total (lookup k (fees_grouped interval protocols')) =
         option_map total (lookup k (fees_grouped interval protocols))) /\
    (forall protocols : list Float64.protocol,
       option_map Float64.fees
         (Float64.lookup k (Float64.grouped_data interval protocols)) =
         match float_reports field k protocols with
         | [] => None
         | vs => Some (float_sum vs)
         end).
Proof.
  intros interval field k Hr. apply interval_field_reads in Hr. subst field.
  split.
  - intros protocols. split.
    + unfold fees_grouped.
      rewrite (@merged_total_sum (fees_metric interval) fees_describe
                 (fees_change interval) (fun _ => None) 0 (Z.le_refl 0)
                 (fees_metric_above interval)).
      rewrite <- fees_contributions_reports.
      destruct (contributing (fees_metric interval) k protocols);
        reflexivity.
    + intros protocols' Hp.
      apply merged_total_Permutation with (lo := 0); [lia| |exact Hp].
      apply fees_metric_above.
  - intros protocols. apply float_merged_fees.
Qed.

(** Witness of C1 on example 1 of the specification and a permutation of
    it, where the fees of A are 150 in both orders, and on the float
    records 0.1, 0.2, 0.3. *)
Lemma merged_fees_are_the_sum_of_integer_reports_witness :
  reads "24h" "total24h" /\
  option_map total (lookup (Some "A") (fees_grouped "24h" example_1))
    = Some 150 /\
  option_map total (lookup (Some "A") (fees_grouped "24h" example_1_permuted))
    = Some 150 /\
  option_map Float64.fees
    (Float64.lookup (Some "A") (Float64.grouped_data "24h" example_floats))
    = Some Float64.six_tenths_up.
Proof.
  assert (Hr : reads "24h" "total24h").
  { right. right. split; [discriminate|]. split; [discriminate|reflexivity]. }
  destruct (@merged_fees_are_the_sum_of_integer_reports
              "24h" "total24h" (Some "A") Hr) as [Hz Hf].
  split; [exact Hr|].
  destruct (Hz example_1) as [Hsum Hperm].
  split; [rewrite Hsum; reflexivity|]. split.
  - rewrite (Hperm example_1_permuted (Permutation_rev example_1)), Hsum.
    reflexivity.
  - rewrite Hf. vm_compute. reflexivity.
Defined.

(** Example 1 of the specification, end to end: A:100, A:50, B:80 give
    the entities A:150 and B:80, ranked [A(150), B(80)]. *)
Example example_1_ranked :
  map (fun kv => (fst kv, total (snd kv))) (fees_grouped "24h" example_1) =
    [(Some "A"%string, 150); (Some "B"%string, 80)] /\
  map total (fetch_fees_data (Ok (Some example_1)) "24h") = [150; 80].
Proof. split; reflexivity. Qed.

(* ================================================================== *)
(** * The description of a merged entity *)
(* ================================================================== *)

Lemma merged_description metric describe change_of slug_of lo :
  0 <= lo -> (forall p v, metric p = Some v -> lo < v) ->
  forall protocols k e,
    lookup k (merge metric describe change_of slug_of protocols) = Some e ->
    entry_ok metric describe (contributing metric k protocols) e.
Proof.
  intros Hlo Habove protocols k e He.
  pose proof (merge_invariant metric describe change_of slug_of Hlo Habove
                protocols k) as H.
  now rewrite He in H.
Qed.

Lemma prediction_metric_bnb_tvl p :
  prediction_metric p =
  if is_prediction_market p && (100 <? bnb_tvl p)
  then Some (bnb_tvl p) else None.
Proof.
  unfold prediction_metric, is_prediction_market, bnb_tvl, dict_get_default,
    dict_get. cbv zeta.
  destruct (@assoc (option string) "category" (text p)) as [c|]; simpl;
    [|reflexivity].
  destruct (pystr_eqb c (Some "Prediction Market")); simpl; [|reflexivity].
  destruct (chainTvls p) as [d|]; simpl; [|reflexivity].
  unfold or_num, truthy_num.
  destruct (@assoc (option Z) "Binance" d) as [[v|]|]; simpl.
  - destruct (v =? 0); simpl; [|reflexivity].
    destruct (@assoc (option Z) "BSC" d) as [[w|]|]; reflexivity.
  - destruct (@assoc (option Z) "BSC" d) as [[w|]|]; reflexivity.
  - destruct (@assoc (option Z) "BSC" d) as [[w|]|]; reflexivity.
Qed.

(** The record that describes an entity, read off the members of the
    records: among the records of the key that pass the filter [ok] it is
    the first whose value [val] is the largest. *)
Lemma largest_record metric (ok : protocol -> bool) (val : protocol -> Z)
    describe change_of slug_of lo :
  0 <= lo -> (forall p v, metric p = Some v -> lo < v) ->
  (forall p, metric p = if ok p then Some (val p) else None) ->
  forall protocols k e,
    lookup k (merge metric describe change_of slug_of protocols) = Some e ->
    exists l1 r l2,
      filter (fun p => pystr_eqb (parent_or_slug (text p)) k && ok p)
             protocols = l1 ++ r :: l2 /\
      Forall (fun x => val x < val r) l1 /\
      Forall (fun x => val x <= val r) l2 /\
      (name e, logo e, category e) = describe r /\
      ok r = true.
Proof.
  intros Hlo Habove Hm protocols k e He.
  apply merged_description with (lo := lo) in He; [|exact Hlo|exact Habove].
  destruct He as (_ & l1 & r & l2 & Hc & H1 & H2 & _ & Hd).
  destruct (@contributing_filter metric ok val k protocols Hm) as [Hf Hv].
  rewrite Hc in Hv. rewrite Hf in Hc.
  apply Forall_app in Hv. destruct Hv as [Hv1 Hv2].
  inversion Hv2 as [|? ? [Hr Hok] Hv3]; subst.
  exists l1, r, l2. split; [exact Hc|].
  rewrite Forall_forall in H1, H2, Hv1, Hv3.
  repeat split; try assumption.
  - apply Forall_forall. intros x Hx.
    rewrite <- (proj1 (Hv1 x Hx)), <- Hr. now apply H1.
  - apply Forall_forall. intros x Hx.
    rewrite <- (proj1 (Hv3 x Hx)), <- Hr. now apply H2.
Qed.

(** C2. For every sequence of raw records, the name, logo and category
    of a merged entity are those of the contributing record with the
    largest value of the ranking metric, the first such record on ties:
    every contributing record before it is strictly smaller and none
    after it is larger.  This holds in the fees (revenue) script and in
    the prediction-market script.  Read off the members of the records:
    in the fees script the contributing records are those of the key
    that report a positive value under the member of the interval, the
    name is displayName, or name when displayName is missing, null or
    empty, with "Unknown" for a missing name, the logo is logo with the
    empty string for a missing one, the category is category with "N/A"
    for a missing one; in the prediction-market script the contributing
    records are the prediction markets of the key with a TVL on BNB chain
    above 100, the name is name with "Unknown" for a missing one, and the
    category is "Prediction Market". *)
Theorem description_is_of_the_largest_contribution :
  forall (protocols : list protocol) (k : pystr) (e : entry),
    (forall interval,
       lookup k (fees_grouped interval protocols) = Some e ->
       (let mv := metric_value (fees_metric interval) in
        exists l1 r l2,
          contributing (fees_metric interval) k protocols = l1 ++ r :: l2 /\
          Forall (fun x => mv x < mv r) l1 /\
          Forall (fun x => mv x <= mv r) l2 /\
          (name e, logo e, category e) = fees_describe r) /\
       forall field,
         reads interval field ->
         exists l1 r l2,
           records_of field k protocols = l1 ++ r :: l2 /\
           Forall (fun x => reported field x < reported field r) l1 /\
           Forall (fun x => reported field x <= reported field r) l2 /\
           name e = match dict_get (text r) "displayName" with
                    | Some d => if String.eqb d ""
                                then dict_get_default (text r) "name" "Unknown"
                                else Some d
                    | None => dict_get_default (text r) "name" "Unknown"
                    end /\
           logo e = dict_get_default (text r) "logo" "" /\
           category e = dict_get_default (text r) "category" "N/A") /\
    (lookup k (prediction_grouped protocols) = Some e ->
     (let mv := metric_value prediction_metric in
      exists l1 r l2,
        contributing prediction_metric k protocols = l1 ++ r :: l2 /\
        Forall (fun x => mv x < mv r) l1 /\
        Forall (fun x => mv x <= mv r) l2 /\
        (name e, logo e, category e) = prediction_describe r) /\
     exists l1 r l2,
       markets_of k protocols = l1 ++ r :: l2 /\
       Forall (fun x => bnb_tvl x < bnb_tvl r) l1 /\
       Forall (fun x => bnb_tvl x <= bnb_tvl r) l2 /\
       name e = dict_get_default (text r) "name" "Unknown" /\
       logo e = dict_get_default (text r) "logo" "" /\
       category e = Some "Prediction Market").
Proof.
  intros protocols k e. split.
  - intros interval He. split.
    + intros mv.
      apply merged_description with (lo := 0) in He;
        [|lia|apply fees_metric_above].
      destruct He as (_ & l1 & r & l2 & Hc & H1 & H2 & _ & Hd).
      exists l1, r, l2. auto.
    + intros field Hr. apply interval_field_reads in Hr. subst field.
      apply (@largest_record (fees_metric interval)
               (fun p => 0 <? reported (interval_field interval) p)
               (reported (interval_field interval))
               fees_describe (fees_change interval) (fun _ => None) 0
               (Z.le_refl 0) (fees_metric_above interval)
               (fees_metric_reported interval)) in He.
      destruct He as (l1 & r & l2 & Hc & H1 & H2 & Hd & _).
      exists l1, r, l2. unfold fees_describe in Hd.
      injection Hd as Hn Hl Hcat.
      repeat split; try assumption.
      rewrite Hn. unfold or_str, truthy_str.
      destruct (dict_get (text r) "displayName") as [d|]; [|reflexivity].
      destruct (String.eqb d ""); reflexivity.
  - intros He. split.
    + intros mv.
      apply merged_description with (lo := 100) in He;
        [|lia|apply prediction_metric_above].
      destruct He as (_ & l1 & r & l2 & Hc & H1 & H2 & _ & Hd).
      exists l1, r, l2. auto.
    + apply (@largest_record prediction_metric
               (fun p => is_prediction_market p && (100 <? bnb_tvl p))
               bnb_tvl prediction_describe prediction_change
               (fun p => Some (dict_get (text p) "slug")) 100
               ltac:(lia) prediction_metric_above
               prediction_metric_bnb_tvl) in He.
      destruct He as (l1 & r & l2 & Hc & H1 & H2 & Hd & Hok).
      exists l1, r, l2. unfold prediction_describe in Hd.
      injection Hd as Hn Hl Hcat.
      repeat split; try assumption.
      rewrite Hcat. apply andb_prop in Hok. destruct Hok as [Hpm _].
      unfold is_prediction_market, dict_get in Hpm.
      unfold dict_get_default.
      destruct (@assoc (option string) "category" (text r)) as [c|];
        [|discriminate].
      destruct (pystr_eqb_spec c (Some "Prediction Market"));
        [assumption|discriminate].
Qed.

(** Witness of C2.  Of the four records of parent A the entity takes the
    name of the second, which has the largest fees; not that of the third,
    which ties with it, and not that of the last one folded in.  Of the
    two versions of a prediction market the entity takes the name of the
    second, which has the larger TVL. *)
Lemma description_is_of_the_largest_contribution_witness :
  (exists e,
     lookup (Some "A") (fees_grouped "24h" example_versions) = Some e /\
     name e = Some "large" /\
     reads "24h" "total24h" /\
     exists l1 r l2,
       records_of "total24h" (Some "A") example_versions = l1 ++ r :: l2 /\
       Forall (fun x => reported "total24h" x < reported "total24h" r) l1 /\
       Forall (fun x => reported "total24h" x <= reported "total24h" r) l2 /\
       name e = match dict_get (text r) "displayName" with
                | Some d => if String.eqb d ""
                            then dict_get_default (text r) "name" "Unknown"
                            else Some d
                | None => dict_get_default (text r) "name" "Unknown"
                end /\
       logo e = dict_get_default (text r) "logo" "" /\
       category e = dict_get_default (text r) "category" "N/A") /\
  (exists e,
     lookup (Some "parent#m") (prediction_grouped example_markets) = Some e /\
     name e = Some "M two" /\
     exists l1 r l2,
       markets_of (Some "parent#m") example_markets = l1 ++ r :: l2 /\
       Forall (fun x => bnb_tvl x < bnb_tvl r) l1 /\
       Forall (fun x => bnb_tvl x <= bnb_tvl r) l2 /\
       name e = dict_get_default (text r) "name" "Unknown" /\
       logo e = dict_get_default (text r) "logo" "" /\
       category e = Some "Prediction Market").
Proof.
  assert (Hr : reads "24h" "total24h").
  { right. right. split; [discriminate|]. split; [discriminate|reflexivity]. }
  split.
  - exists {| name := Some "large"; logo := Some ""; category := Some "N/A";
              total := 320; change := Some 0; max_total := 100;
              slug := None |}.
    split; [vm_compute; reflexivity|]. split; [reflexivity|].
    split; [exact Hr|].
    refine (proj2 (proj1 (description_is_of_the_largest_contribution
                            example_versions (Some "A") _) "24h" _)
                  "total24h" Hr).
    vm_compute. reflexivity.
  - exists {| name := Some "M two"; logo := Some "";
              category := Some "Prediction Market";
              total := 1100; change := Some 0; max_total := 900;
              slug := Some (Some "m-v1") |}.
    split; [vm_compute; reflexivity|]. split; [reflexivity|].
    refine (proj2 (proj2 (description_is_of_the_largest_contribution
                            example_markets (Some "parent#m") _) _)).
    vm_compute. reflexivity.
Defined.

(* ================================================================== *)
(** * Records that do not pass the filter *)
(* ================================================================== *)

Lemma In_firstn {A} n (l : list A) x : In x (firstn n l) -> In x l.
Proof.
  intros H. rewrite <- (firstn_skipn n l). apply in_or_app. now left.
Qed.

Lemma In_sort_desc l e : In e (sort_desc l) -> In e l.
Proof. apply Permutation_in, sort_desc_Permutation. Qed.

Lemma In_values_total metric describe change_of slug_of lo :
  0 <= lo -> (forall p v, metric p = Some v -> lo < v) ->
  forall protocols e,
    In e (values (merge metric describe change_of slug_of protocols)) ->
    lo < total e.
Proof.
  intros Hlo Habove protocols e He.
  unfold values in He. apply in_map_iff in He. destruct He as (ke & <- & Hin).
  pose proof (merged_totals metric describe change_of slug_of Hlo Habove
                protocols) as H.
  rewrite Forall_forall in H. now apply H.
Qed.

Lemma contributing_none metric k ps :
  (forall q, In q ps -> group_key q = k -> metric q = None) ->
  contributing metric k ps = [].
Proof.
  intros H. induction ps as [|p ps IH]; [reflexivity|]. simpl.
  destruct (metric p) as [v|] eqn:Hm.
  - destruct (pystr_eqb_spec (group_key p) k) as [Hk|Hk].
    + rewrite (H p (or_introl eq_refl) Hk) in Hm. discriminate.
    + apply IH. intros q Hq. apply H. now right.
  - apply IH. intros q Hq. apply H. now right.
Qed.

(** C5. A record whose value for the ranking metric is absent contributes
    nothing: with or without it the merge and the ranked output are the
    same, and a key all of whose records lack the metric gets no entity
    (it is not ranked with value zero). *)
Theorem record_without_metric_is_excluded :
  forall (interval : string) (ps1 : list protocol) (p : protocol)
         (ps2 : list protocol),
    dict_get (number p) (interval_field interval) = None ->
    fees_grouped interval (ps1 ++ p :: ps2) = fees_grouped interval (ps1 ++ ps2)
    /\ fetch_fees_data (Ok (Some (ps1 ++ p :: ps2))) interval =
       fetch_fees_data (Ok (Some (ps1 ++ ps2))) interval
    /\ fetch_revenue_data (Ok (Some (ps1 ++ p :: ps2))) interval =
       fetch_revenue_data (Ok (Some (ps1 ++ ps2))) interval
    /\ ((forall q, In q (ps1 ++ ps2) -> group_key q = group_key p ->
                   dict_get (number q) (interval_field interval) = None) ->
        lookup (group_key p) (fees_grouped interval (ps1 ++ p :: ps2)) = None).
Proof.
  intros interval ps1 p ps2 Hp.
  assert (E : fees_grouped interval (ps1 ++ p :: ps2) =
              fees_grouped interval (ps1 ++ ps2)).
  { apply merged_skip. now apply fees_metric_none. }
  split; [exact E|].
  unfold fetch_revenue_data, fetch_fees_data, fees_rank. rewrite E.
  split; [reflexivity|]. split; [reflexivity|].
  intros Hall.
  pose proof (@merged_total_sum (fees_metric interval) fees_describe
                (fees_change interval) (fun _ => None) 0 (Z.le_refl 0)
                (fees_metric_above interval) (ps1 ++ ps2) (group_key p)) as H.
  rewrite contributing_none in H.
  - unfold fees_grouped. destruct (lookup _ _); [discriminate|reflexivity].
  - intros q Hq Hk. apply fees_metric_none. now apply Hall.
Qed.

(** Witness of C5: a record that does not report total24h between two
    that do. *)
Lemma record_without_metric_is_excluded_witness :
  dict_get (number not_reported) (interval_field "24h") = None /\
  fetch_fees_data
    (Ok (Some (firstn 2 example_1 ++ not_reported :: skipn 2 example_1)))
    "24h" =
  fetch_fees_data
    (Ok (Some (firstn 2 example_1 ++ skipn 2 example_1))) "24h".
Proof.
  split; [reflexivity|].
  exact (proj1 (proj2 (record_without_metric_is_excluded
                         "24h" (firstn 2 example_1) not_reported
                         (skipn 2 example_1) eq_refl))).
Defined.

(* ================================================================== *)
(** * Positive metrics *)
(* ================================================================== *)

(** C10. Every entity of the merge, and so every entry of the ranked
    output, has a strictly positive value of the ranking metric, in the
    fees, revenue and prediction-market scripts; a record that reports
    zero or a negative value is left out exactly as one that reports
    nothing. *)
Theorem ranked_entries_have_positive_metric :
  (forall api interval e, In e (fetch_fees_data api interval) -> 0 < total e)
  /\ (forall api interval e,
        In e (fetch_revenue_data api interval) -> 0 < total e)
  /\ (forall api e, In e (fetch_prediction_market_data api) -> 0 < total e)
  /\ (forall interval ps1 p p' ps2 v,
        dict_get (number p) (interval_field interval) = Some v -> v <= 0 ->
        dict_get (number p') (interval_field interval) = None ->
        fees_grouped interval (ps1 ++ p :: ps2) =
        fees_grouped interval (ps1 ++ ps2) /\
        fetch_fees_data (Ok (Some (ps1 ++ p :: ps2))) interval =
        fetch_fees_data (Ok (Some (ps1 ++ p' :: ps2))) interval).
Proof.
  assert (Hfees : forall api interval e,
             In e (fetch_fees_data api interval) -> 0 < total e).
  { intros [data|ex] interval e He; simpl in He; [|contradiction].
    unfold fees_rank in He. apply In_firstn, In_sort_desc in He.
    eapply In_values_total with (lo := 0); [lia| |exact He].
    apply fees_metric_above. }
  split; [exact Hfees|]. split; [exact Hfees|]. split.
  - intros [data|ex] e He; simpl in He; [|contradiction].
    apply In_sort_desc in He.
    assert (100 < total e); [|lia].
    eapply In_values_total with (lo := 100); [lia| |exact He].
    apply prediction_metric_above.
  - intros interval ps1 p p' ps2 v Hp Hv Hp'.
    assert (E : fees_grouped interval (ps1 ++ p :: ps2) =
                fees_grouped interval (ps1 ++ ps2)).
    { apply merged_skip. eapply fees_metric_nonpositive; eassumption. }
    assert (E' : fees_grouped interval (ps1 ++ p' :: ps2) =
                 fees_grouped interval (ps1 ++ ps2)).
    { apply merged_skip. now apply fees_metric_none. }
    split; [exact E|].
    unfold fetch_fees_data, fees_rank. now rewrite E, E'.
Qed.

(** Witness of C10: the first entry ranked for example 1, and a record
    that reports zero in place of one that reports nothing. *)
Lemma ranked_entries_have_positive_metric_witness :
  (forall e, In e (fetch_fees_data (Ok (Some example_1)) "24h") ->
             0 < total e) /\
  fetch_fees_data (Ok (Some (example_1 ++ reported_zero :: []))) "24h" =
  fetch_fees_data (Ok (Some (example_1 ++ not_reported :: []))) "24h".
Proof.
  split.
  - exact (proj1 ranked_entries_have_positive_metric
             (Ok (Some example_1)) "24h").
  - refine (proj2 (proj2 (proj2 (proj2 ranked_entries_have_positive_metric))
              "24h" example_1 reported_zero not_reported [] 0
              eq_refl _ eq_refl)).
    lia.
Defined.

(* ================================================================== *)
(** * The ranked output *)
(* ================================================================== *)

(** Against C3 as stated: two protocols with the same fees, the one named
    B listed first by the source, are ranked B before A.  The output is
    not in the order "metric descending, then name ascending". *)
Lemma ranked_ties_are_not_by_name :
  map name (fetch_fees_data (Ok (Some example_tie)) "24h")
    = [Some "B"; Some "A"] /\
  ~ spec_ranked 10 (fetch_fees_data (Ok (Some example_tie)) "24h").
Proof.
  split; [reflexivity|].
  intros [_ H]. vm_compute in H.
  apply StronglySorted_inv in H. destruct H as [_ Hall].
  inversion Hall as [|? ? Hb _]; subst.
  destruct Hb as [Hlt|[_ Hn]].
  - vm_compute in Hlt. discriminate.
  - vm_compute in Hn. discriminate.
Qed.

Lemma filter_firstn_prefix {A} (f : A -> bool) n l :
  filter f l = filter f (firstn n l) ++ filter f (skipn n l).
Proof. now rewrite <- filter_app, firstn_skipn. Qed.

(** C3, amended.  The ranked output of the fees (revenue) script has at
    most 10 entries and is sorted by the metric, descending; entries with
    the same metric stay in the order in which their keys first occurred
    in the input (for every value [t] the entries of that value in the
    output are a prefix of those in the merge); sorting the output again
    by the metric changes nothing.  The output is the first ten entries,
    or all if there are fewer, of the one arrangement of the merged
    entities that is sorted by the metric and keeps entries of the same
    metric in their order.  The prediction-market script sorts in the
    same way and does not cut its list: its output is that arrangement of
    all merged entities. *)
Theorem ranked_output_is_stable_top_ten :
  forall (api : result (option (list protocol))) (interval : string),
    let out := fetch_fees_data api interval in
    (List.length out <= 10)%nat /\
    StronglySorted total_ge out /\
    sort_desc out = out /\
    (forall (protocols : list protocol) (t : Z),
       exists rest,
         filter (fun e => total e =? t)
                (values (fees_grouped interval protocols)) =
         filter (fun e => total e =? t)
                (fetch_fees_data (Ok (Some protocols)) interval) ++ rest) /\
    (forall (papi : result (list protocol)),
       StronglySorted total_ge (fetch_prediction_market_data papi)) /\
    (forall (protocols : list protocol),
       let all := values (fees_grouped interval protocols) in
       let top := fetch_fees_data (Ok (Some protocols)) interval in
       List.length top = Nat.min 10 (List.length all) /\
       exists rest,
         Permutation (top ++ rest) all /\
         StronglySorted total_ge (top ++ rest) /\
         forall t, filter (fun e => total e =? t) (top ++ rest) =
                   filter (fun e => total e =? t) all) /\
    (forall (data : list protocol),
       let all := values (prediction_grouped data) in
       let ranked := fetch_prediction_market_data (Ok data) in
       Permutation ranked all /\
       List.length ranked = List.length all /\
       sort_desc ranked = ranked /\
       forall t, filter (fun e => total e =? t) ranked =
                 filter (fun e => total e =? t) all).
Proof.
  intros api interval out.
  assert (Hs : StronglySorted total_ge out).
  { subst out. destruct api as [data|ex]; simpl; [|constructor].
    unfold fees_rank. apply firstn_sorted, sort_desc_sorted. }
  split.
  { subst out. destruct api as [data|ex]; simpl; [|lia].
    unfold fees_rank. apply firstn_le_length. }
  split; [exact Hs|]. split; [now apply sort_desc_id|]. split; [|split].
  - intros protocols t. simpl. unfold fees_rank.
    exists (filter (fun e => total e =? t)
              (skipn 10 (sort_desc (values (fees_grouped interval protocols))))).
    rewrite <- filter_firstn_prefix. symmetry. apply sort_desc_stable.
  - intros [data|ex]; simpl; [apply sort_desc_sorted|constructor].
  - split.
    + intros protocols all top. subst all top. simpl. unfold fees_rank.
      split.
      * rewrite length_firstn.
        now rewrite (Permutation_length (sort_desc_Permutation _)).
      * exists (skipn 10 (sort_desc (values (fees_grouped interval protocols)))).
        rewrite firstn_skipn.
        split; [apply sort_desc_Permutation|].
        split; [apply sort_desc_sorted|].
        intros t. apply sort_desc_stable.
    + intros data all ranked. subst all ranked. simpl.
      split; [apply sort_desc_Permutation|].
      split; [apply Permutation_length, sort_desc_Permutation|].
      split; [apply sort_desc_id, sort_desc_sorted|].
      intros t. apply sort_desc_stable.
Qed.

(** The prediction markets of equal TVL keep the order of the input, and
    none is cut: Top (900), then Zed and Abe (500 each) as listed. *)
Example prediction_ties_keep_their_order :
  map name (fetch_prediction_market_data (Ok example_market_tie)) =
    [Some "Top"; Some "Zed"; Some "Abe"] /\
  map total (fetch_fees_data (Ok (Some example_eleven)) "24h") =
    [11; 10; 9; 8; 7; 6; 5; 4; 3; 2].
Proof. split; vm_compute; reflexivity. Qed.

(* ================================================================== *)
(** * The identity key *)
(* ================================================================== *)

(** Against C4 as stated: the two records of example 2 of the
    specification have no group key and the same normalized display
    name, yet they are kept as two entities, because their slugs
    differ. *)
Lemma same_normalized_name_is_not_merged :
  map spec_identity_key example_pancake
    = [Some "pancakeswap"; Some "pancakeswap"] /\
  map fst (fees_grouped "24h" example_pancake)
    = [Some "pancake-swap"; Some "pancakeswap"] /\
  map name (fetch_fees_data (Ok (Some example_pancake)) "24h")
    = [Some "Pancake Swap"; Some "pancakeswap"].
Proof. repeat split; reflexivity. Qed.

Lemma add_key_NoDup ks k : NoDup ks -> NoDup (add_key ks k).
Proof.
  intros H. unfold add_key.
  destruct (existsb (pystr_eqb k) ks) eqn:E; [exact H|].
  apply NoDup_app; [exact H|repeat constructor; intros []|].
  intros x Hx Hk. destruct Hk as [<-|[]].
  assert (existsb (pystr_eqb k) ks = true); [|congruence].
  apply existsb_exists. exists k. split; [exact Hx|apply pystr_eqb_refl].
Qed.

Lemma first_seen_NoDup ks : NoDup (first_seen ks).
Proof.
  unfold first_seen.
  assert (H : forall acc, NoDup acc -> NoDup (fold_left add_key ks acc)).
  { induction ks as [|k ks IH]; intros acc Hacc; simpl; [exact Hacc|].
    apply IH. now apply add_key_NoDup. }
  apply H. constructor.
Qed.

(** C4, amended.  The identity key of a record is its parentProtocol when
    that is present and not empty, and otherwise its slug as the source
    gives it; display names play no part.  The entities of the merge are
    the distinct keys of the records that pass the filter, one entity per
    key, in the order in which the keys first occur. *)
Theorem identity_key_is_parent_or_slug :
  forall (interval : string) (protocols : list protocol),
    (forall p : protocol,
       group_key p =
       match dict_get (text p) "parentProtocol" with
       | Some parent => if String.eqb parent "" then dict_get (text p) "slug"
                        else Some parent
       | None => dict_get (text p) "slug"
       end) /\
    map fst (fees_grouped interval protocols) =
      first_seen (map group_key
                      (filter (passes (fees_metric interval)) protocols)) /\
    NoDup (map fst (fees_grouped interval protocols)).
Proof.
  intros interval protocols.
  assert (Hk : map fst (fees_grouped interval protocols) =
               first_seen (map group_key
                  (filter (passes (fees_metric interval)) protocols)))
    by apply merged_keys.
  split; [|split; [exact Hk|rewrite Hk; apply first_seen_NoDup]].
  intros p. unfold group_key, or_str, truthy_str.
  destruct (dict_get (text p) "parentProtocol") as [parent|]; [|reflexivity].
  destruct (String.eqb parent ""); reflexivity.
Qed.

(** The one place where names are matched up to case and spaces is
    [merge_data], which looks up the DappBay row of an entity that is
    already merged: "Pancake Swap" finds the row of "pancakeswap". *)
Example merge_data_matches_names_up_to_spaces :
  forall e,
    name e = Some "Pancake Swap" ->
    merge_data lower [e]
      (dappbay_index lower [{| row_name := "pancakeswap";
                               row_users := Some "1.2K";
                               row_txns := None |}]) =
    Ok [{| item := e; users := Some "1.2K"; vol := Some "N/A" |}].
Proof. intros e He. simpl. rewrite He. reflexivity. Qed.

(* ================================================================== *)
(** * Units of formatted numbers *)
(* ================================================================== *)

(** Against C9 as stated: fees of two billion are printed in millions by
    [format_fees], while [format_currency] prints the same value in
    billions. *)
Lemma fees_of_two_billion_are_in_millions :
  format_fees (Some 2000000000) = Scaled "$" 2000000000 1000000 2 "M" /\
  unit_of (format_fees (Some 2000000000)) <> spec_unit 2000000000 /\
  unit_of (DuneBnbchain.format_currency (Some 2000000000)) = "B".
Proof. repeat split; try reflexivity. vm_compute. discriminate. Qed.

Ltac ladder v :=
  repeat match goal with
         | |- context [?a <=? v] => destruct (Z.leb_spec a v)
         | |- context [v =? ?a] => destruct (Z.eqb_spec v a)
         end;
  simpl; try reflexivity; try lia.

(** C9, amended.  Every formatter divides by the divisor of the unit it
    prints.  [format_currency] and the prediction-market [format_number]
    follow the ladder B from one billion, M from one million, K from one
    thousand; [format_fees], [format_revenue] and the [format_number] of
    the BNB-chain overview have no billion step and print M from one
    million upwards.  Below one billion all of them print the same
    unit. *)
Theorem formatters_follow_their_own_ladder :
  forall v : Z,
    (unit_of (format_fees (Some v)) = unit_up_to_million v /\
     unit_of (format_revenue (Some v)) = unit_up_to_million v /\
     unit_of (DuneBnbchain.format_number (Some v)) = unit_up_to_million v /\
     unit_of (DuneBnbchain.format_currency (Some v)) = spec_unit v /\
     forall prefix,
       unit_of (PredictionMarket.format_number (Some v) prefix) = spec_unit v)
    /\
    (divisor_of (format_fees (Some v))
       = unit_divisor (unit_of (format_fees (Some v))) /\
     divisor_of (DuneBnbchain.format_number (Some v))
       = unit_divisor (unit_of (DuneBnbchain.format_number (Some v))) /\
     divisor_of (DuneBnbchain.format_currency (Some v))
       = unit_divisor (unit_of (DuneBnbchain.format_currency (Some v))) /\
     forall prefix,
       divisor_of (PredictionMarket.format_number (Some v) prefix)
       = unit_divisor (unit_of (PredictionMarket.format_number (Some v) prefix)))
    /\
    (v < 1000000000 -> unit_up_to_million v = spec_unit v).
Proof.
  intros v.
  unfold format_revenue, format_fees, DuneBnbchain.format_number,
    DuneBnbchain.format_currency, PredictionMarket.format_number,
    unit_up_to_million, spec_unit.
  repeat split; try intros prefix; try intros Hv; ladder v.
Qed.

(** Witness of C9: 2500 is printed in K by every formatter. *)
Lemma formatters_follow_their_own_ladder_witness :
  2500 < 1000000000 /\
  unit_of (format_fees (Some 2500)) = spec_unit 2500.
Proof.
  split; [reflexivity|].
  destruct (formatters_follow_their_own_ladder 2500) as [[H _] [_ Hsame]].
  rewrite H. apply Hsame. reflexivity.
Defined.

(* ================================================================== *)
(** * Logos never fail the caller *)
(* ================================================================== *)

Lemma prefix_nil s : String.prefix "" s = true.
Proof. destruct s; reflexivity. Qed.

Lemma prefix_cons a s1 s2 :
  String.prefix (String a s1) (String a s2) = String.prefix s1 s2.
Proof. simpl. destruct (ascii_dec a a); [reflexivity|contradiction]. Qed.

Lemma fetch_logo_as_base64_ok (http : network) (url : pystr) :
  exists s, fetch_logo_as_base64 http url = Ok s /\
            (s = "" \/ String.prefix "data:" s = true).
Proof.
  unfold fetch_logo_as_base64.
  destruct url as [u|]; [|exists ""; auto].
  destruct (String.eqb u ""); [exists ""; auto|].
  destruct (http u) as [resp|e]; simpl; [|exists ""; auto].
  destruct (status_code resp =? 200); simpl; eexists;
    (split; [reflexivity|]);
    [right; rewrite !prefix_cons; apply prefix_nil|left; reflexivity].
Qed.

Lemma attach_logos_ok (http : network) (protocols : list entry) :
  exists ps, attach_logos http protocols = Ok ps /\ map base ps = protocols.
Proof.
  induction protocols as [|p rest (ps & Hps & Hb)]; simpl.
  - exists []. auto.
  - destruct (fetch_logo_as_base64_ok http (logo p)) as (s & -> & _).
    simpl. rewrite Hps. simpl. eexists. split; [reflexivity|].
    simpl. now rewrite Hb.
Qed.

Lemma dapps_fetch_logo_ok (http : network) (d : Dapps.dapp) :
  exists b, Dapps.fetch_logo http d = Ok (Dapps.set_logoBase64 d b).
Proof.
  unfold Dapps.fetch_logo.
  destruct (truthy_str (Dapps.logoUrl d)); [|eexists; reflexivity].
  destruct (http _) as [resp|e]; simpl; [|eexists; reflexivity].
  destruct (status_code resp =? 200); simpl; eexists; reflexivity.
Qed.

Lemma dapps_fetch_logos_ok (http : network) (dapps : list Dapps.dapp) :
  exists out, Dapps.fetch_logos http dapps = Ok out /\
              map Dapps.scraped out = map Dapps.scraped dapps.
Proof.
  induction dapps as [|d rest (out & Hout & Hs)]; simpl.
  - exists []. auto.
  - destruct (dapps_fetch_logo_ok http d) as (b & ->). simpl.
    rewrite Hout. simpl. eexists. split; [reflexivity|].
    simpl. now rewrite Hs.
Qed.

(** C7. For every logo reference and every behaviour of the network (the
    empty reference, an exception such as an unreachable host or a
    timeout, a status other than 200), the resolver returns to its caller:
    with a data URI, or with the empty asset, which is what it returns on
    every failure.  The same holds for the logo loop over the DappBay
    rows.  The leaderboard is not touched by the logos: the entries (and
    so their caption) and the scraped rows are what they were. *)
Theorem asset_resolver_never_raises :
  forall http : network,
    (forall url, exists s,
        fetch_logo_as_base64 http url = Ok s /\
        (s = "" \/ String.prefix "data:" s = true)) /\
    fetch_logo_as_base64 http None = Ok "" /\
    fetch_logo_as_base64 http (Some "") = Ok "" /\
    (forall u e, http u = Raise e ->
                 fetch_logo_as_base64 http (Some u) = Ok "") /\
    (forall u resp, http u = Ok resp -> status_code resp <> 200 ->
                    fetch_logo_as_base64 http (Some u) = Ok "") /\
    (forall protocols, exists ps,
        attach_logos http protocols = Ok ps /\
        map base ps = protocols /\
        forall date interval,
          get_caption_text (map base ps) date interval =
          get_caption_text protocols date interval) /\
    (forall dapps, exists out,
        Dapps.fetch_logos http dapps = Ok out /\
        map Dapps.scraped out = map Dapps.scraped dapps).
Proof.
  intros http.
  split; [apply fetch_logo_as_base64_ok|].
  split; [reflexivity|]. split; [reflexivity|].
  split; [|split; [|split]].
  - intros u e He. unfold fetch_logo_as_base64.
    destruct (String.eqb u ""); [reflexivity|]. now rewrite He.
  - intros u resp Hr Hs. unfold fetch_logo_as_base64.
    destruct (String.eqb u ""); [reflexivity|]. rewrite Hr. simpl.
    destruct (Z.eqb_spec (status_code resp) 200); [contradiction|reflexivity].
  - intros protocols.
    destruct (attach_logos_ok http protocols) as (ps & Hps & Hb).
    exists ps. rewrite Hb. auto.
  - apply dapps_fetch_logos_ok.
Qed.

(** Witness of C7: a host that times out gives the empty asset. *)
Lemma asset_resolver_never_raises_witness :
  example_network "https://down.example/logo.png" = Raise Timeout /\
  fetch_logo_as_base64 example_network (Some "https://down.example/logo.png")
    = Ok "".
Proof.
  split; [reflexivity|].
  apply (proj1 (proj2 (proj2 (proj2
           (asset_resolver_never_raises example_network))))
           "https://down.example/logo.png" Timeout).
  reflexivity.
Defined.

(** A logo that is served becomes a data URI; one that is missing, the
    empty asset. *)
Example logo_served_and_missing :
  fetch_logo_as_base64 example_network (Some "https://icons.example/ok.png")
    = Ok "data:image/png;base64,TWFu" /\
  fetch_logo_as_base64 example_network
    (Some "https://icons.example/missing.png") = Ok "".
Proof. split; reflexivity. Qed.

(* ================================================================== *)
(** * The slots of the template *)
(* ================================================================== *)

(** Each of the ten slots is placed; column and row are the quotient and
    the remainder of the rank by the column size 5. *)
Lemma place_ok (i : nat) (p : with_logo) :
  (i < 10)%nat ->
  exists h,
    place i p = Ok h /\
    (text_top h ==
       inject_Z (slot_center_y (i / 5) (i mod 5)) - RADIUS)%Q /\
    (text_left h ==
       inject_Z (slot_center_x (i / 5)) + RADIUS + inject_Z 50)%Q /\
    (forall src left top,
        logo_html h = Some (src, left, top) ->
        (left == inject_Z (slot_center_x (i / 5)) - RADIUS)%Q /\
        (top == inject_Z (slot_center_y (i / 5) (i mod 5)) - RADIUS)%Q) /\
    shown_name h = name (base p) /\
    shown_category h = category (base p) /\
    fees_formatted h = format_fees (Some (total (base p))).
Proof.
  intros Hi.
  do 10 (destruct i as [|i];
         [eexists; split; [reflexivity|];
          split; [reflexivity|]; split; [reflexivity|];
          split; [|auto];
          intros src left top; cbn [logo_html];
          destruct (truthy_str _); [|discriminate];
          destruct (or_str _ _); [|discriminate];
          intros [= _ <- <-]; split; reflexivity
         |]).
  lia.
Qed.

Lemma compose_from_spec (protocols : list with_logo) :
  forall i, (i <= 10)%nat ->
  exists slots,
    compose_from i protocols = Ok slots /\
    List.length slots = Nat.min (List.length protocols) (10 - i) /\
    forall j p, nth_error protocols j = Some p -> (i + j < 10)%nat ->
                exists h, nth_error slots j = Some h /\
                          place (i + j) p = Ok h.
Proof.
  induction protocols as [|p rest IH]; intros i Hi;
    cbn [compose_from List.length].
  - exists []. repeat split; auto. intros [|j] q Hq; discriminate.
  - destruct (Nat.leb_spec 10 i) as [Hge|Hlt].
    + exists []. split; [reflexivity|]. split.
      * cbn [List.length]. lia.
      * intros j q _ Hj. lia.
    + destruct (place_ok p Hlt) as (h & Hh & _).
      destruct (IH (S i) Hlt) as (hs & Hhs & Hlen & Hnth).
      rewrite Hh, Hhs. cbn [bind]. exists (h :: hs).
      split; [reflexivity|]. split.
      * cbn [List.length]. rewrite Hlen. lia.
      * intros [|j] q Hq Hj; cbn [nth_error] in *.
        -- injection Hq as <-. exists h. rewrite Nat.add_0_r. auto.
        -- destruct (Hnth j q Hq) as (h' & Hn & Hp); [lia|].
           exists h'. rewrite <- plus_n_Sm. auto.
Qed.

(** C6. For a ranked list of any length the compositor returns without an
    error.  Entry [i] below the slot count 10 is placed on slot [i]: in
    the left column at row [i] for [i < 5], in the right column at row
    [i - 5] from 5 on, that is at column [i / 5] and row [i mod 5] of the
    column size 5, with its logo and text at the measured centre of that
    slot.  Entries at rank 10 and beyond are dropped. *)
Theorem compositor_fills_ten_slots_and_drops_the_rest :
  forall protocols : list with_logo,
    exists slots,
      compose_from 0 protocols = Ok slots /\
      List.length slots = Nat.min (List.length protocols) 10 /\
      (forall i p,
          nth_error protocols i = Some p -> (i < 10)%nat ->
          exists h,
            nth_error slots i = Some h /\
            place i p = Ok h /\
            ((i < 5)%nat -> (i / 5 = 0 /\ i mod 5 = i)%nat) /\
            ((5 <= i)%nat -> (i / 5 = 1 /\ i mod 5 = i - 5)%nat) /\
            (text_top h ==
               inject_Z (slot_center_y (i / 5) (i mod 5)) - RADIUS)%Q /\
            (text_left h ==
               inject_Z (slot_center_x (i / 5)) + RADIUS + inject_Z 50)%Q /\
            (forall src left top,
                logo_html h = Some (src, left, top) ->
                (left == inject_Z (slot_center_x (i / 5)) - RADIUS)%Q /\
                (top == inject_Z (slot_center_y (i / 5) (i mod 5))
                        - RADIUS)%Q) /\
            shown_name h = name (base p) /\
            fees_formatted h = format_fees (Some (total (base p)))) /\
      (forall i, (10 <= i)%nat -> nth_error slots i = None) /\
      (forall http entries,
          exists slots',
            create_composite_image http entries = Ok slots' /\
            List.length slots' = Nat.min (List.length entries) 10).
Proof.
  intros protocols.
  destruct (compose_from_spec protocols (Nat.le_0_l 10))
    as (slots & Hc & Hlen & Hnth).
  exists slots. split; [exact Hc|]. rewrite Nat.sub_0_r in Hlen.
  split; [exact Hlen|]. split; [|split].
  - intros i p Hp Hi.
    destruct (Hnth i p Hp Hi) as (h & Hn & Hpl). simpl in Hpl.
    destruct (place_ok p Hi) as (h' & Hpl' & Htop & Hleft & Hlogo & Hname
                                   & _ & Hfees).
    assert (h' = h) by congruence. subst h'.
    exists h. repeat split; auto.
    + apply Nat.div_small. assumption.
    + apply Nat.mod_small. assumption.
    + clear - Hi H. do 10 (destruct i as [|i]; [try reflexivity; lia|]). lia.
    + clear - Hi H. do 10 (destruct i as [|i]; [try reflexivity; lia|]). lia.
    + apply (Hlogo src left top). assumption.
    + apply (Hlogo src left top). assumption.
  - intros i Hi. apply nth_error_None. lia.
  - intros http entries. unfold create_composite_image.
    destruct (attach_logos_ok http entries) as (ps & Hps & Hb).
    rewrite Hps. simpl.
    destruct (compose_from_spec ps (Nat.le_0_l 10)) as (s' & Hs' & Hl' & _).
    exists s'. split; [exact Hs'|].
    rewrite Hl', Nat.sub_0_r, <- Hb, length_map. reflexivity.
Qed.

(** Witness of C6: of twelve entries ten are placed; the one at rank 7 is
    in the right column, row 2, whose centre is at y = 1063. *)
Lemma compositor_fills_ten_slots_and_drops_the_rest_witness :
  exists slots,
    compose_from 0 example_twelve = Ok slots /\
    List.length slots = 10%nat /\
    nth_error slots 11 = None /\
    exists h,
      nth_error slots 7 = Some h /\
      (text_top h == inject_Z 1063 - RADIUS)%Q /\
      (text_left h == inject_Z RIGHT_LOGO_X + RADIUS + inject_Z 50)%Q.
Proof.
  destruct (compositor_fills_ten_slots_and_drops_the_rest example_twelve)
    as (slots & Hc & Hlen & Hnth & Hdrop & _).
  exists slots. split; [exact Hc|]. split; [exact Hlen|].
  split; [apply Hdrop; repeat constructor|].
  destruct (Hnth 7%nat {| base := example_entry 5; logoBase64 := "" |}
              eq_refl) as (h & Hn & _ & _ & _ & Htop & Hleft & _).
  - repeat constructor.
  - exists h. split; [exact Hn|]. split; [exact Htop|exact Hleft].
Defined.

(** The loop over one category of the ecosystem template stops at the end
    of the category's centres in the same way, for protocols with a name
    (the page script skips rows without one). *)
Lemma fulleco_compose_from_spec centers (protocols : list Fulleco.protocol) :
  Forall (fun p => Fulleco.name p <> "") protocols ->
  forall i, (i <= List.length centers)%nat ->
  exists items,
    Fulleco.compose_from centers i protocols = Ok items /\
    List.length items =
      Nat.min (List.length protocols) (List.length centers - i) /\
    forall j p, nth_error protocols j = Some p ->
                (i + j < List.length centers)%nat ->
                exists h, nth_error items j = Some h /\
                          Fulleco.place centers (i + j) p = Ok h.
Proof.
  induction 1 as [|p rest Hp _ IH]; intros i Hi;
    cbn [Fulleco.compose_from List.length].
  - exists []. repeat split; auto. intros [|j] q Hq; discriminate.
  - destruct (Nat.leb_spec (List.length centers) i) as [Hge|Hlt].
    + exists []. split; [reflexivity|]. split.
      * cbn [List.length]. lia.
      * intros j q _ Hj. lia.
    + assert (Hpl : exists h, Fulleco.place centers i p = Ok h).
      { unfold Fulleco.place, index.
        destruct (nth_error centers i) as [[cy cx]|] eqn:E.
        - cbn [bind]. destruct (negb _); cbn [bind]; [eexists; reflexivity|].
          destruct (Fulleco.name p); [contradiction|].
          cbn [bind]. eexists; reflexivity.
        - apply nth_error_None in E. lia. }
      destruct Hpl as (h & Hh).
      destruct (IH (S i) Hlt) as (hs & Hhs & Hlen & Hnth).
      rewrite Hh, Hhs. cbn [bind]. exists (h :: hs).
      split; [reflexivity|]. split.
      * cbn [List.length]. rewrite Hlen. lia.
      * intros [|j] q Hq Hj; cbn [nth_error] in *.
        -- injection Hq as <-. exists h. rewrite Nat.add_0_r. auto.
        -- destruct (Hnth j q Hq) as (h' & Hn & Hp'); [lia|].
           exists h'. rewrite <- plus_n_Sm. auto.
Qed.

(* ================================================================== *)
(** * The result envelope *)
(* ================================================================== *)

(** C8. In structured-output mode, a run whose fetch yields no usable
    data prints, between the JSON markers, an object with the single
    member "error" (fees and DappBay rankings alike).  Every object a
    run prints has either that one member or all the members of a
    success; none is partly filled. *)
Theorem failure_envelope_has_only_an_error :
  forall (api : result (option (list protocol)))
         (clock : result clock_reading) (interval : string),
    (fetch_fees_data api interval = [] ->
     run_logic api clock interval true =
       Ok [Line "---JSON_START---";
           JsonDumps [("error", JString "Failed to fetch data")];
           Line "---JSON_END---"]) /\
    (forall e, api = Raise e ->
               run_logic api clock interval true =
                 Ok [Line "---JSON_START---";
                     JsonDumps [("error", JString "Failed to fetch data")];
                     Line "---JSON_END---"]) /\
    (forall json_output out e,
        run_logic api clock interval json_output = Ok out ->
        In (JsonDumps e) out ->
        members e = ["error"] \/
        members e = ["image"; "caption"; "timestamp"; "interval"; "data"]) /\
    DappsRun.run_logic [] clock true =
      Ok [DappsRun.Line "---JSON_START---";
          DappsRun.JsonDumps
            [("error", DappsRun.JString "Failed to fetch data")];
          DappsRun.Line "---JSON_END---"] /\
    (forall dapps json_output out e,
        DappsRun.run_logic dapps clock json_output = Ok out ->
        In (DappsRun.JsonDumps e) out ->
        members e = ["error"] \/
        members e = ["image"; "caption"; "timestamp"; "data"]).
Proof.
  intros api clock interval.
  assert (H1 : fetch_fees_data api interval = [] ->
     run_logic api clock interval true =
       Ok [Line "---JSON_START---";
           JsonDumps [("error", JString "Failed to fetch data")];
           Line "---JSON_END---"]).
  { intros H. unfold run_logic, fetch_fees_data_call. now rewrite H. }
  split; [exact H1|]. split; [|split; [|split]].
  - intros e ->. apply H1. reflexivity.
  - intros json_output out e. unfold run_logic, fetch_fees_data_call.
    cbv zeta. destruct (print_table _); cbn [bind]; [|discriminate].
    destruct (fetch_fees_data api interval) as [|p ps].
    + destruct json_output; intros [= <-] Hin; simpl in Hin.
      * destruct Hin as [Hin|[Hin|[Hin|[]]]]; try discriminate.
        injection Hin as <-. now left.
      * destruct Hin as [Hin|[]]; discriminate.
    + destruct clock as [now_tz|ex]; simpl; [|discriminate].
      destruct json_output; intros [= <-] Hin; simpl in Hin.
      * destruct Hin as [Hin|[Hin|[Hin|[]]]]; try discriminate.
        injection Hin as <-. now right.
      * destruct Hin as [Hin|[Hin|[Hin|[]]]]; discriminate.
  - reflexivity.
  - intros dapps json_output out e. unfold DappsRun.run_logic.
    destruct dapps as [|d ds].
    + destruct json_output; intros [= <-] Hin; simpl in Hin.
      * destruct Hin as [Hin|[Hin|[Hin|[]]]]; try discriminate.
        injection Hin as <-. now left.
      * destruct Hin as [Hin|[]]; discriminate.
    + destruct clock as [now_tz|ex]; simpl; [|discriminate].
      destruct json_output; intros [= <-] Hin; simpl in Hin.
      * destruct Hin as [Hin|[Hin|[Hin|[]]]]; try discriminate.
        injection Hin as <-. now right.
      * destruct Hin as [Hin|[Hin|[Hin|[]]]]; discriminate.
Qed.

(** Witness of C8: the source answers, but no protocol reports fees. *)
Lemma failure_envelope_has_only_an_error_witness :
  fetch_fees_data (Ok (Some [not_reported; reported_zero])) "24h" = [] /\
  run_logic (Ok (Some [not_reported; reported_zero])) example_clock "24h" true
    = Ok [Line "---JSON_START---";
          JsonDumps [("error", JString "Failed to fetch data")];
          Line "---JSON_END---"].
Proof.
  split; [reflexivity|].
  apply (proj1 (failure_envelope_has_only_an_error
                  (Ok (Some [not_reported; reported_zero]))
                  example_clock "24h")).
  reflexivity.
Defined.

(** A run that succeeds prints all the members. *)
Example success_envelope_members :
  exists e,
    run_logic (Ok (Some example_1)) example_clock "24h" true =
      Ok [Line "---JSON_START---"; JsonDumps e; Line "---JSON_END---"] /\
    members e = ["image"; "caption"; "timestamp"; "interval"; "data"].
Proof. eexists. split; reflexivity. Qed.

(* ================================================================== *)
(** * More about the merge *)
(* ================================================================== *)

Lemma sum_ge_member {A} (f : A -> Z) (l : list A) (r : A) :
  (forall x, In x l -> 0 <= f x) -> In r l -> f r <= sum (map f l).
Proof.
  induction l as [|a l IH]; intros Hpos Hin; [contradiction|].
  simpl. assert (0 <= sum (map f l)).
  { clear - Hpos. induction l as [|b l IH]; simpl; [lia|].
    assert (0 <= f b) by (apply Hpos; simpl; auto).
    assert (0 <= sum (map f l)); [|lia].
    apply IH. intros x Hx. apply Hpos. simpl in *. tauto. }
  assert (0 <= f a) by (apply Hpos; simpl; auto).
  destruct Hin as [<-|Hin]; [lia|].
  assert (f r <= sum (map f l)); [|lia].
  apply IH; [|exact Hin]. intros x Hx. apply Hpos. now right.
Qed.

Lemma contributing_In metric k ps x :
  In x (contributing metric k ps) <->
  In x ps /\ passes metric x = true /\ group_key x = k.
Proof.
  unfold contributing, passes. rewrite filter_In.
  destruct (metric x); [|intuition discriminate].
  destruct (pystr_eqb_spec (group_key x) k) as [Hk|Hk].
  - intuition.
  - split; [intros [_ H]; discriminate|intros (_ & _ & H); contradiction].
Qed.

Lemma contributing_value_above metric lo k ps x :
  (forall p v, metric p = Some v -> lo < v) ->
  In x (contributing metric k ps) -> lo < metric_value metric x.
Proof.
  intros Habove Hx. apply contributing_In in Hx.
  destruct Hx as (_ & Hp & _). unfold passes, metric_value in *.
  destruct (metric x) as [v|] eqn:E; [eauto|discriminate].
Qed.

(** The member max_fees of an entity is the largest fees among the records
    that contribute to it; it is positive and not larger than the summed
    fees. *)
Theorem max_fees_is_the_largest_contribution :
  forall (interval : string) (protocols : list protocol) (k : pystr)
         (e : entry),
    lookup k (fees_grouped interval protocols) = Some e ->
    let mv := metric_value (fees_metric interval) in
    let c := contributing (fees_metric interval) k protocols in
    (forall x, In x c -> mv x <= max_total e) /\
    (exists r, In r c /\ mv r = max_total e) /\
    0 < max_total e <= total e.
Proof.
  intros interval protocols k e He mv c.
  apply merged_description with (lo := 0) in He;
    [|lia|apply fees_metric_above].
  destruct He as (Ht & l1 & r & l2 & Hc & H1 & H2 & Hmax & _).
  fold c in Hc, Ht. fold mv in H1, H2, Hmax, Ht.
  assert (Hr : In r c) by (rewrite Hc; apply in_elt).
  assert (Hpos : forall x, In x c -> 0 < mv x).
  { intros x Hx. eapply contributing_value_above; [|exact Hx].
    apply fees_metric_above. }
  split; [|split].
  - intros x Hx. rewrite Hc in Hx. rewrite Hmax.
    apply in_app_or in Hx. rewrite Forall_forall in H1, H2.
    destruct Hx as [Hx|[<-|Hx]]; [apply H1 in Hx|..|apply H2 in Hx]; lia.
  - exists r. auto.
  - rewrite Hmax, Ht. split; [now apply Hpos|].
    apply sum_ge_member; [|exact Hr].
    intros x Hx. apply Hpos in Hx. lia.
Qed.

Lemma max_fees_is_the_largest_contribution_witness :
  exists e,
    lookup (Some "A") (fees_grouped "24h" example_versions) = Some e /\
    0 < max_total e <= total e.
Proof.
  exists {| name := Some "large"; logo := Some ""; category := Some "N/A";
            total := 320; change := Some 0; max_total := 100;
            slug := None |}.
  split; [vm_compute; reflexivity|].
  apply (max_fees_is_the_largest_contribution "24h" example_versions
           (Some "A")).
  vm_compute. reflexivity.
Defined.

(** A key has an entity exactly when some record that passes the filter
    carries it: no passing record is lost, and no entity comes from
    nowhere. *)
Theorem entity_exists_iff_a_record_contributes :
  forall (interval : string) (protocols : list protocol) (k : pystr),
    (exists e, lookup k (fees_grouped interval protocols) = Some e) <->
    (exists p, In p protocols /\
               passes (fees_metric interval) p = true /\
               group_key p = k).
Proof.
  intros interval protocols k.
  pose proof (@merged_total_sum (fees_metric interval) fees_describe
                (fees_change interval) (fun _ => None) 0 (Z.le_refl 0)
                (fees_metric_above interval) protocols k) as H.
  fold (fees_grouped interval protocols) in H.
  split.
  - intros (e & He). rewrite He in H. simpl in H.
    destruct (contributing (fees_metric interval) k protocols) as [|p c] eqn:E;
      [discriminate|].
    exists p. apply contributing_In. rewrite E. now left.
  - intros (p & Hp). apply contributing_In in Hp.
    destruct (contributing (fees_metric interval) k protocols) as [|q c];
      [contradiction|].
    destruct (lookup k (fees_grouped interval protocols)) as [e|];
      [eauto|discriminate].
Qed.

Lemma adjust_absent k f g : ~ In k (map fst g) -> adjust k f g = g.
Proof.
  induction g as [|[k0 e] g IH]; intros Hk; [reflexivity|]. simpl in *.
  destruct (pystr_eqb_spec k k0) as [->|Hn]; [tauto|].
  rewrite IH; [reflexivity|tauto].
Qed.

Lemma totals_adjust_same k f g :
  (forall e, total (f e) = total e) ->
  sum (map (fun ke => total (snd ke)) (adjust k f g)) =
  sum (map (fun ke => total (snd ke)) g).
Proof.
  intros Hf. induction g as [|[k0 e] g IH]; [reflexivity|].
  change (adjust k f ((k0, e) :: g))
    with ((if pystr_eqb k (fst (k0, e)) then (fst (k0, e), f (snd (k0, e)))
           else (k0, e)) :: adjust k f g).
  cbn [fst snd map sum fold_right]. fold (sum (map (fun ke => total (snd ke)) g)).
  fold (sum (map (fun ke => total (snd ke)) (adjust k f g))).
  rewrite IH. destruct (pystr_eqb k k0); cbn [snd]; rewrite ?Hf; reflexivity.
Qed.

Lemma totals_adjust_add k f v g :
  (forall e, total (f e) = total e + v) ->
  NoDup (map fst g) -> mem k g = true ->
  sum (map (fun ke => total (snd ke)) (adjust k f g)) =
  sum (map (fun ke => total (snd ke)) g) + v.
Proof.
  intros Hf Hnd Hm. induction g as [|[k0 e] g IH]; [discriminate|].
  inversion Hnd as [|? ? Hnotin Hnd']; subst.
  change (adjust k f ((k0, e) :: g))
    with ((if pystr_eqb k (fst (k0, e)) then (fst (k0, e), f (snd (k0, e)))
           else (k0, e)) :: adjust k f g).
  cbn [fst snd]. destruct (pystr_eqb_spec k k0) as [->|Hn].
  - rewrite adjust_absent by exact Hnotin. simpl. rewrite Hf. lia.
  - simpl. rewrite IH; [lia|exact Hnd'|].
    unfold mem in *. simpl in Hm.
    destruct (pystr_eqb_spec k k0); [contradiction|exact Hm].
Qed.

Lemma add_key_keeps ks k : existsb (pystr_eqb k) (add_key ks k) = true.
Proof.
  unfold add_key. destruct (existsb (pystr_eqb k) ks) eqn:E; [exact E|].
  rewrite existsb_app. simpl. rewrite pystr_eqb_refl.
  now rewrite orb_true_r.
Qed.

Lemma totals_fold_protocol_sum metric describe change_of slug_of g p :
  NoDup (map fst g) ->
  sum (map (fun ke => total (snd ke))
           (fold_protocol metric describe change_of slug_of g p)) =
  sum (map (fun ke => total (snd ke)) g) + metric_value metric p.
Proof.
  intros Hnd. unfold fold_protocol, metric_value.
  destruct (metric p) as [v|]; [|lia]. cbv zeta.
  set (g1 := if mem (group_key p) g then g
             else g ++ [(group_key p, fresh describe slug_of p)]).
  assert (Hk1 : map fst g1 = add_key (map fst g) (group_key p)).
  { unfold g1, add_key. rewrite <- mem_keys.
    destruct (mem (group_key p) g); [reflexivity|].
    now rewrite map_app. }
  assert (Hnd1 : NoDup (map fst g1)).
  { rewrite Hk1. now apply add_key_NoDup. }
  assert (Hm1 : mem (group_key p) g1 = true).
  { rewrite mem_keys, Hk1. apply add_key_keeps. }
  assert (Ht1 : sum (map (fun ke => total (snd ke)) g1) =
                sum (map (fun ke => total (snd ke)) g)).
  { unfold g1. destruct (mem (group_key p) g); [reflexivity|].
    rewrite map_app, sum_app. unfold fresh.
    destruct (describe p) as [[n l] c]. simpl. lia. }
  rewrite totals_adjust_same.
  - rewrite totals_adjust_add with (v := v);
      [f_equal; exact Ht1| |exact Hnd1|exact Hm1].
    intros e. reflexivity.
  - intros e. destruct (max_total e <? v); [|reflexivity].
    unfold refresh. destruct (describe p) as [[n l] c]. reflexivity.
Qed.

Lemma merged_NoDup metric describe change_of slug_of ps :
  NoDup (map fst (merge metric describe change_of slug_of ps)).
Proof. rewrite merged_keys. apply first_seen_NoDup. Qed.

Lemma merged_totals_sum metric describe change_of slug_of ps :
  sum (map total (values (merge metric describe change_of slug_of ps))) =
  sum (map (metric_value metric) ps).
Proof.
  unfold values. rewrite map_map.
  induction ps as [|p ps IH] using rev_ind; [reflexivity|].
  rewrite merged_snoc, totals_fold_protocol_sum by apply merged_NoDup.
  rewrite IH, map_app, sum_app. simpl. lia.
Qed.

Lemma sum_of_passing metric (ok : protocol -> bool) (val : protocol -> Z)
    ps :
  (forall p, metric p = if ok p then Some (val p) else None) ->
  sum (map (metric_value metric) ps) = sum (map val (filter ok ps)).
Proof.
  intros H. induction ps as [|p ps IH]; [reflexivity|].
  cbn [map filter sum fold_right]. fold (sum (map (metric_value metric) ps)).
  unfold metric_value at 1. rewrite H.
  destruct (ok p); cbn [map sum fold_right];
    fold (sum (map val (filter ok ps))); lia.
Qed.

(** For records that report integers, the merge conserves the metric.
    The fees of all entities together are the sum of the positive values
    that the records report under the member of the interval; the TVL of
    all prediction-market entities together is the sum of the TVL on BNB
    chain of the prediction markets that report more than 100. *)
Theorem merged_fees_are_conserved :
  forall (interval field : string) (protocols : list protocol),
    reads interval field ->
    sum (map total (values (fees_grouped interval protocols))) =
      sum (all_positive_reports field protocols) /\
    sum (map total (values (prediction_grouped protocols))) =
      sum (map bnb_tvl
             (filter (fun p => is_prediction_market p && (100 <? bnb_tvl p))
                     protocols)).
Proof.
  intros interval field protocols Hr.
  apply interval_field_reads in Hr. subst field. split.
  - unfold fees_grouped, all_positive_reports. rewrite merged_totals_sum.
    apply sum_of_passing. apply fees_metric_reported.
  - unfold prediction_grouped. rewrite merged_totals_sum.
    apply (@sum_of_passing prediction_metric
             (fun p => is_prediction_market p && (100 <? bnb_tvl p)) bnb_tvl).
    apply prediction_metric_bnb_tvl.
Qed.

(** On example 1 of the specification the entities A (150) and B (80)
    hold the 230 of the three records; the two versions of the prediction
    market hold 1100 together. *)
Lemma merged_fees_are_conserved_witness :
  reads "24h" "total24h" /\
  sum (map total (values (fees_grouped "24h" example_1))) = 230 /\
  sum (map total (values (prediction_grouped example_markets))) = 1100.
Proof.
  assert (Hr : reads "24h" "total24h").
  { right. right. split; [discriminate|]. split; [discriminate|reflexivity]. }
  split; [exact Hr|].
  destruct (@merged_fees_are_conserved "24h" "total24h" example_1 Hr)
    as [Hf _].
  destruct (@merged_fees_are_conserved "24h" "total24h" example_markets Hr)
    as [_ Hm].
  split; [rewrite Hf|rewrite Hm]; reflexivity.
Defined.

Lemma fold_add_key_length ks acc :
  (List.length (fold_left add_key ks acc) <= List.length acc + List.length ks)%nat.
Proof.
  revert acc. induction ks as [|k ks IH]; intros acc; simpl; [lia|].
  specialize (IH (add_key acc k)).
  assert (List.length (add_key acc k) <= S (List.length acc))%nat; [|lia].
  unfold add_key. destruct (existsb _ _); [lia|].
  rewrite length_app. simpl. lia.
Qed.

Lemma sort_desc_length l : List.length (sort_desc l) = List.length l.
Proof. apply Permutation_length, sort_desc_Permutation. Qed.

(** There are never more entities than records that pass the filter, and
    the ranked output has as many entries as there are entities, up to 10:
    nothing is padded and nothing but the cut-off removes an entity. *)
Theorem ranked_output_has_one_entry_per_entity :
  forall (interval : string) (protocols : list protocol),
    (List.length (fees_grouped interval protocols)
       <= List.length (filter (passes (fees_metric interval)) protocols)
       <= List.length protocols)%nat /\
    List.length (fetch_fees_data (Ok (Some protocols)) interval) =
      Nat.min 10 (List.length (fees_grouped interval protocols)) /\
    List.length (fetch_prediction_market_data (Ok protocols)) =
      List.length (prediction_grouped protocols).
Proof.
  intros interval protocols. split; [split|split].
  - rewrite <- (length_map fst (fees_grouped interval protocols)).
    unfold fees_grouped. rewrite merged_keys. unfold first_seen.
    etransitivity; [apply fold_add_key_length|].
    simpl. now rewrite length_map.
  - apply filter_length_le.
  - simpl. unfold fees_rank. rewrite length_firstn, sort_desc_length.
    unfold values. now rewrite length_map.
  - simpl. rewrite sort_desc_length. unfold values. now rewrite length_map.
Qed.

Lemma StronglySorted_app_inv {A} (R : A -> A -> Prop) l1 l2 :
  StronglySorted R (l1 ++ l2) ->
  forall a b, In a l1 -> In b l2 -> R a b.
Proof.
  induction l1 as [|x l1 IH]; intros Hs a b Ha Hb; [contradiction|].
  simpl in Hs. apply StronglySorted_inv in Hs. destruct Hs as [Hs Hall].
  destruct Ha as [<-|Ha].
  - rewrite Forall_forall in Hall. apply Hall. apply in_or_app. now right.
  - now apply IH.
Qed.

(** The cut-off keeps the largest: the merged entities are the ranked
    ones together with the dropped ones, no dropped entity has more fees
    than a ranked one, and entities are dropped only when ten are
    ranked. *)
Theorem cut_off_keeps_the_largest :
  forall (interval : string) (protocols : list protocol) (e e' : entry),
    In e (fetch_fees_data (Ok (Some protocols)) interval) ->
    In e' (fees_dropped interval protocols) ->
    total e' <= total e /\
    List.length (fetch_fees_data (Ok (Some protocols)) interval) = 10%nat /\
    Permutation (values (fees_grouped interval protocols))
                (fetch_fees_data (Ok (Some protocols)) interval
                   ++ fees_dropped interval protocols).
Proof.
  intros interval protocols e e'. simpl. unfold fees_rank, fees_dropped.
  set (sorted := sort_desc (values (fees_grouped interval protocols))).
  intros He He'. split; [|split].
  - apply (@StronglySorted_app_inv _ total_ge (firstn 10 sorted)
             (skipn 10 sorted)); auto.
    rewrite firstn_skipn. apply sort_desc_sorted.
  - rewrite length_firstn.
    destruct (Nat.le_gt_cases (List.length sorted) 10) as [Hle|Hgt]; [|lia].
    rewrite skipn_all2 in He' by exact Hle. contradiction.
  - rewrite firstn_skipn. symmetry. apply sort_desc_Permutation.
Qed.

(** Witness: of eleven protocols the one with the smallest fees is
    dropped. *)
Lemma cut_off_keeps_the_largest_witness :
  exists e e',
    In e (fetch_fees_data (Ok (Some example_eleven)) "24h") /\
    In e' (fees_dropped "24h" example_eleven) /\
    total e = 11 /\ total e' = 1 /\ total e' <= total e.
Proof.
  pose (mk := fun n v =>
          {| name := Some n; logo := Some ""; category := Some "N/A";
             total := v; change := Some 0; max_total := v; slug := None |}).
  exists (mk "p01" 11), (mk "p11" 1).
  assert (H1 : In (mk "p01" 11)
                  (fetch_fees_data (Ok (Some example_eleven)) "24h"))
    by (vm_compute; left; reflexivity).
  assert (H2 : In (mk "p11" 1) (fees_dropped "24h" example_eleven))
    by (vm_compute; left; reflexivity).
  split; [exact H1|]. split; [exact H2|].
  split; [reflexivity|]. split; [reflexivity|].
  exact (proj1 (cut_off_keeps_the_largest "24h" example_eleven
                  (mk "p01" 11) (mk "p11" 1) H1 H2)).
Defined.

(* ================================================================== *)
(** * The caption and the envelope of a run *)
(* ================================================================== *)

Lemma nth_error_combine_seq {A} (l : list A) (s i : nat) :
  nth_error (combine (seq s (List.length l)) l) i =
  option_map (fun a => ((s + i)%nat, a)) (nth_error l i).
Proof.
  revert s i. induction l as [|a l IH]; intros s [|i]; simpl; try reflexivity.
  - now rewrite Nat.add_0_r.
  - rewrite IH. destruct (nth_error l i); simpl; [|reflexivity].
    now rewrite <- plus_n_Sm.
Qed.

Lemma nth_error_enumerate {A} (l : list A) (i : nat) :
  nth_error (enumerate l) i = option_map (fun a => (i, a)) (nth_error l i).
Proof. unfold enumerate. now rewrite nth_error_combine_seq. Qed.

Lemma enumerate_length {A} (l : list A) :
  List.length (enumerate l) = List.length l.
Proof.
  unfold enumerate. rewrite length_combine, length_seq. apply Nat.min_id.
Qed.

(** The caption lists the first ten protocols in their order, numbered
    from 1 without a gap, each with its name and its formatted fees; a list
    of fewer than ten is listed whole, without padding. *)
Theorem caption_lists_the_first_ten :
  forall (protocols : list entry) (date interval : string) (i : nat),
    nth_error (caption_lines (get_caption_text protocols date interval)) i =
      (if (i <? 10)%nat
       then option_map
              (fun p => (S i, name p, format_fees (Some (total p))))
              (nth_error protocols i)
       else None) /\
    List.length (caption_lines (get_caption_text protocols date interval)) =
      Nat.min 10 (List.length protocols) /\
    caption_date (get_caption_text protocols date interval) = date.
Proof.
  intros protocols date interval i. unfold get_caption_text.
  cbn [caption_lines caption_date]. split; [|split; [|reflexivity]].
  - rewrite nth_error_map, nth_error_enumerate, nth_error_firstn.
    destruct (i <? 10)%nat; [|reflexivity].
    destruct (nth_error protocols i); reflexivity.
  - now rewrite length_map, enumerate_length, length_firstn.
Qed.



(** Without that condition the run ends in the table: a protocol whose
    category is null is ranked, and printing its row raises TypeError
    before anything is printed as JSON. *)
Example run_raises_for_a_null_category :
  map category (fetch_fees_data (Ok (Some [example_null_category])) "24h")
    = [None] /\
  run_logic (Ok (Some [example_null_category])) example_clock "24h" true
    = Raise TypeError.
Proof. split; reflexivity. Qed.



(* ================================================================== *)
(** * The DappBay index and [merge_data] *)
(* ================================================================== *)

Lemma replace_char_empty_idem c s :
  replace_char c "" (replace_char c "" s) = replace_char c "" s.
Proof.
  induction s as [|a s IH]; [reflexivity|]. simpl.
  destruct (Ascii.eqb a c) eqn:E; simpl; [exact IH|].
  now rewrite E, IH.
Qed.

Lemma dappbay_index_sound_from str_lower dapps acc k r :
  assoc k (fold_left
    (fun dapp_map d =>
       if negb (String.eqb (row_name d) "") then
         let key := replace_char " " "" (str_lower (row_name d)) in
         (str_lower (row_name d), d) :: (key, d) :: dapp_map
       else dapp_map) dapps acc) = Some r ->
  assoc k acc = Some r \/
  (In r dapps /\ row_name r <> "" /\
   (k = str_lower (row_name r) \/
    k = replace_char " " "" (str_lower (row_name r)))).
Proof.
  revert acc. induction dapps as [|d dapps IH]; intros acc H; simpl in H.
  - now left.
  - apply IH in H. destruct H as [H|(Hin & Hne & Hk)].
    + destruct (String.eqb_spec (row_name d) "") as [He|He]; simpl in H.
      * now left.
      * destruct (String.eqb_spec k (str_lower (row_name d))) as [->|Hk1].
        -- injection H as <-. right. simpl. auto.
        -- destruct (String.eqb_spec k
                       (replace_char " " "" (str_lower (row_name d))))
             as [->|Hk2].
           ++ injection H as <-. right. simpl. auto.
           ++ now left.
    + right. simpl. auto.
Qed.

Lemma dappbay_index_keeps str_lower dapps acc k :
  assoc k acc <> None ->
  assoc k (fold_left
    (fun dapp_map d =>
       if negb (String.eqb (row_name d) "") then
         let key := replace_char " " "" (str_lower (row_name d)) in
         (str_lower (row_name d), d) :: (key, d) :: dapp_map
       else dapp_map) dapps acc) <> None.
Proof.
  revert acc. induction dapps as [|d dapps IH]; intros acc H; simpl;
    [exact H|].
  apply IH. destruct (negb _); [|exact H]. simpl.
  destruct (String.eqb k (str_lower (row_name d))); [discriminate|].
  destruct (String.eqb k _); [discriminate|exact H].
Qed.

Lemma dappbay_index_complete str_lower dapps r :
  In r dapps -> row_name r <> "" ->
  assoc (str_lower (row_name r)) (dappbay_index str_lower dapps) <> None /\
  assoc (replace_char " " "" (str_lower (row_name r)))
        (dappbay_index str_lower dapps) <> None.
Proof.
  unfold dappbay_index. generalize (@nil (string * dappbay_row)).
  induction dapps as [|d dapps IH]; intros acc Hin Hne; [contradiction|].
  simpl. destruct Hin as [->|Hin]; [|now apply IH].
  destruct (String.eqb_spec (row_name r) "") as [He|_]; [contradiction|].
  simpl. split; apply dappbay_index_keeps; simpl.
  - now rewrite String.eqb_refl.
  - destruct (String.eqb _ (str_lower (row_name r))); [discriminate|].
    now rewrite String.eqb_refl.
Qed.

Lemma dappbay_index_sound str_lower dapps k r :
  assoc k (dappbay_index str_lower dapps) = Some r ->
  In r dapps /\ row_name r <> "" /\
  (k = str_lower (row_name r) \/
   k = replace_char " " "" (str_lower (row_name r))).
Proof.
  intros H. unfold dappbay_index in H.
  apply dappbay_index_sound_from in H.
  destruct H as [H|H]; [discriminate|exact H].
Qed.

(** The index built from the scraped rows holds, under every key, a row
    that was scraped with a name and whose lower-cased name, as it is or
    with its spaces removed, is that key; and every named row can be
    looked up under both of its keys.  This holds for every lowering
    function, so for Python's [str.lower()]. *)
Theorem dappbay_index_holds_named_rows_under_their_keys :
  forall (str_lower : string -> string) (dapps : list dappbay_row),
    (forall k r,
        assoc k (dappbay_index str_lower dapps) = Some r ->
        In r dapps /\ row_name r <> "" /\
        (k = str_lower (row_name r) \/
         k = replace_char " " "" (str_lower (row_name r)))) /\
    (forall r,
        In r dapps -> row_name r <> "" ->
        assoc (str_lower (row_name r)) (dappbay_index str_lower dapps)
          <> None /\
        assoc (replace_char " " "" (str_lower (row_name r)))
              (dappbay_index str_lower dapps) <> None).
Proof.
  intros str_lower dapps. split.
  - intros k r H. unfold dappbay_index in H.
    apply dappbay_index_sound_from in H.
    destruct H as [H|H]; [discriminate|exact H].
  - apply dappbay_index_complete.
Qed.

Lemma dappbay_index_holds_named_rows_under_their_keys_witness :
  In {| row_name := "Pancake Swap"; row_users := Some "1.2K";
        row_txns := Some "9K" |} example_rows /\
  assoc "pancakeswap" (dappbay_index lower example_rows) <> None.
Proof.
  assert (Hin : In {| row_name := "Pancake Swap"; row_users := Some "1.2K";
                      row_txns := Some "9K" |} example_rows)
    by (left; reflexivity).
  split; [exact Hin|].
  refine (proj2 (proj2 (dappbay_index_holds_named_rows_under_their_keys
                          lower example_rows) _ Hin _)).
  discriminate.
Defined.

Lemma merge_data_In str_lower llama_data dappbay_map merged m :
  merge_data str_lower llama_data dappbay_map = Ok merged -> In m merged ->
  exists e, In e llama_data /\
            merge_data str_lower [e] dappbay_map = Ok [m].
Proof.
  revert merged. induction llama_data as [|e rest IH]; intros merged H Hm.
  - injection H as <-. contradiction.
  - simpl in H. destruct (name e) as [n|] eqn:En; [|discriminate].
    destruct (merge_data str_lower rest dappbay_map) as [ms|ex] eqn:Er;
      [|discriminate].
    simpl in H. injection H as <-. destruct Hm as [<-|Hm].
    + exists e. split; [now left|]. simpl. rewrite En. reflexivity.
    + destruct (IH ms eq_refl Hm) as (e' & He' & Hm').
      exists e'. split; [now right|exact Hm'].
Qed.

(** [merge_data] returns every entry, in order and unchanged, when every
    entry has a name; each comes with the volume "N/A" and with users that
    are "N/A" or the users member of a row of the index, which is None for
    a row without that cell.  It raises AttributeError when some name is
    None. *)
Theorem merge_data_keeps_the_entries :
  forall (str_lower : string -> string) (llama_data : list entry)
         (dappbay_map : list (string * dappbay_row)),
    (Forall (fun e => name e <> None) llama_data ->
     exists merged,
       merge_data str_lower llama_data dappbay_map = Ok merged /\
       map item merged = llama_data /\
       Forall (fun m => vol m = Some "N/A" /\
                        (users m = Some "N/A" \/
                         exists k r, assoc k dappbay_map = Some r /\
                                     users m = row_users r)) merged) /\
    (Exists (fun e => name e = None) llama_data ->
     merge_data str_lower llama_data dappbay_map = Raise AttributeError).
Proof.
  intros str_lower llama_data dappbay_map. split.
  - induction 1 as [|e rest He _ (merged & Hm & Hi & Hv)].
    + exists []. repeat split; constructor.
    + simpl. destruct (name e) as [n|]; [|contradiction].
      rewrite Hm. simpl. eexists. split; [reflexivity|].
      simpl. rewrite Hi. split; [reflexivity|].
      constructor; [|exact Hv]. simpl. split; [reflexivity|].
      destruct (assoc (str_lower n) dappbay_map) as [r|] eqn:E1.
      * right. exists (str_lower n), r. auto.
      * destruct (assoc (replace_char " " "" (str_lower n)) dappbay_map)
          as [r|] eqn:E2; [|now left].
        right. exists (replace_char " " "" (str_lower n)), r. auto.
  - induction 1 as [e rest He|e rest _ IH]; simpl.
    + now rewrite He.
    + destruct (name e); [|reflexivity]. now rewrite IH.
Qed.

Lemma merge_data_keeps_the_entries_witness :
  Forall (fun e => name e <> None) [example_named "Pancake Swap"] /\
  Exists (fun e => name e = None)
         [example_named "Pancake Swap"; example_unnamed] /\
  merge_data lower [example_named "Pancake Swap"; example_unnamed]
             (dappbay_index lower example_rows) = Raise AttributeError /\
  exists merged,
    merge_data lower [example_named "Pancake Swap"]
               (dappbay_index lower example_rows) = Ok merged /\
    map item merged = [example_named "Pancake Swap"].
Proof.
  assert (H1 : Forall (fun e => name e <> None)
                      [example_named "Pancake Swap"])
    by (repeat constructor; discriminate).
  assert (H2 : Exists (fun e => name e = None)
                      [example_named "Pancake Swap"; example_unnamed])
    by (right; left; reflexivity).
  split; [exact H1|]. split; [exact H2|]. split.
  - exact (proj2 (merge_data_keeps_the_entries lower _ _) H2).
  - destruct (proj1 (merge_data_keeps_the_entries lower
                       [example_named "Pancake Swap"]
                       (dappbay_index lower example_rows)) H1)
      as (merged & Hm & Hi & _).
    exists merged. split; assumption.
Defined.

(** The users that [merge_data] attaches to an entity are those of a
    scraped row whose name is the entity's name up to letter case and
    spaces (None when that row has no users cell); they are "N/A" when no
    scraped row has such a name.  This holds for every lowering function,
    so for Python's [str.lower()]. *)
Theorem merge_data_matches_names_up_to_case_and_spaces :
  forall (str_lower : string -> string) (llama_data : list entry)
         (dapps : list dappbay_row) (merged : list merged_item)
         (m : merged_item),
    merge_data str_lower llama_data (dappbay_index str_lower dapps)
      = Ok merged ->
    In m merged ->
    exists n,
      name (item m) = Some n /\
      ((exists r, In r dapps /\ row_name r <> "" /\
                  replace_char " " "" (str_lower (row_name r)) =
                  replace_char " " "" (str_lower n) /\
                  users m = row_users r) \/
       (users m = Some "N/A" /\
        forall r, In r dapps -> row_name r <> "" ->
                  replace_char " " "" (str_lower (row_name r)) <>
                  replace_char " " "" (str_lower n))).
Proof.
  intros str_lower llama_data dapps merged m Hmerge Hin.
  destruct (@merge_data_In str_lower llama_data
              (dappbay_index str_lower dapps) merged m Hmerge Hin)
    as (e & _ & He).
  simpl in He. destruct (name e) as [n|] eqn:En; [|discriminate].
  simpl in He. injection He as <-. exists n. simpl.
  split; [exact En|].
  pose proof (@dappbay_index_sound str_lower dapps) as Hsound.
  pose proof (@dappbay_index_complete str_lower dapps) as Hcomplete.
  destruct (assoc (str_lower n) (dappbay_index str_lower dapps))
    as [r1|] eqn:E1.
  - left. exists r1.
    destruct (Hsound _ _ E1) as (Hi & Hne & [Hk|Hk]).
    + repeat split; auto. now rewrite Hk.
    + repeat split; auto. rewrite Hk. now rewrite replace_char_empty_idem.
  - destruct (assoc (replace_char " " "" (str_lower n))
                    (dappbay_index str_lower dapps)) as [r2|] eqn:E2.
    + left. exists r2.
      destruct (Hsound _ _ E2) as (Hi & Hne & [Hk|Hk]).
      * repeat split; auto. rewrite <- Hk.
        now rewrite replace_char_empty_idem.
      * repeat split; auto.
    + right. split; [reflexivity|].
      intros r Hi Hne Hk.
      destruct (Hcomplete r Hi Hne) as [_ H2].
      rewrite Hk in H2. contradiction.
Qed.

Lemma merge_data_matches_names_up_to_case_and_spaces_witness :
  let m := {| item := example_named "opinionlabs";
              users := None; vol := Some "N/A" |} in
  merge_data lower [example_named "opinionlabs"]
             (dappbay_index lower example_rows) = Ok [m] /\
  In m [m] /\
  exists n,
    name (item m) = Some n /\
    ((exists r, In r example_rows /\ row_name r <> "" /\
                replace_char " " "" (lower (row_name r)) =
                replace_char " " "" (lower n) /\
                users m = row_users r) \/
     (users m = Some "N/A" /\
      forall r, In r example_rows -> row_name r <> "" ->
                replace_char " " "" (lower (row_name r)) <>
                replace_char " " "" (lower n))).
Proof.
  intros m.
  assert (H1 : merge_data lower [example_named "opinionlabs"]
                 (dappbay_index lower example_rows) = Ok [m])
    by (vm_compute; reflexivity).
  assert (H2 : In m [m]) by (left; reflexivity).
  split; [exact H1|]. split; [exact H2|].
  exact (@merge_data_matches_names_up_to_case_and_spaces
           lower [example_named "opinionlabs"] example_rows [m] m H1 H2).
Defined.

(** A row of another name is not used: the entity keeps "N/A". *)
Example merge_data_without_a_matching_row :
  merge_data lower [example_named "Polymarket"]
             (dappbay_index lower example_rows) =
  Ok [{| item := example_named "Polymarket";
         users := Some "N/A"; vol := Some "N/A" |}].
Proof. vm_compute. reflexivity. Qed.

(* ================================================================== *)
(** * More about logos *)
(* ================================================================== *)

(** A logo is embedded exactly when the reference is not empty and the
    request is answered with status 200; the data URI then carries the
    content type of the answer, image/png when the answer names none. *)
Theorem logo_is_embedded_iff_served :
  forall (http : network) (url : pystr) (s : string),
    s <> "" ->
    (fetch_logo_as_base64 http url = Ok s <->
     exists u resp,
       url = Some u /\ u <> "" /\ http u = Ok resp /\
       status_code resp = 200 /\
       s = ("data:" ++ match content_type resp with
                       | Some t => t
                       | None => "image/png"
                       end ++ ";base64," ++ b64encode (content resp))%string).
Proof.
  intros http url s Hs. unfold fetch_logo_as_base64. split.
  - destruct url as [u|]; [|intros [= <-]; contradiction].
    destruct (String.eqb_spec u "") as [->|Hu];
      [intros [= <-]; contradiction|].
    destruct (http u) as [resp|ex] eqn:Eh; cbn [bind try_except];
      [|intros [= <-]; contradiction].
    destruct (Z.eqb_spec (status_code resp) 200) as [Hst|Hst];
      cbn [bind try_except]; [|intros [= <-]; contradiction].
    intros [= <-]. exists u, resp. auto.
  - intros (u & resp & -> & Hu & Hh & Hst & ->).
    destruct (String.eqb_spec u ""); [contradiction|].
    rewrite Hh. cbn [bind try_except]. rewrite Hst. reflexivity.
Qed.

Lemma logo_is_embedded_iff_served_witness :
  "data:image/png;base64,TWFu" <> "" /\
  exists u resp,
    Some "https://icons.example/ok.png" = Some u /\ u <> "" /\
    example_network u = Ok resp /\ status_code resp = 200.
Proof.
  assert (H : "data:image/png;base64,TWFu" <> "") by discriminate.
  split; [exact H|].
  destruct (proj1 (@logo_is_embedded_iff_served example_network
                     (Some "https://icons.example/ok.png")
                     "data:image/png;base64,TWFu" H) eq_refl)
    as (u & resp & Hu & Hne & Hh & Hst & _).
  exists u, resp. auto.
Defined.

(** The img tag of a slot is left out exactly when the protocol has
    neither embedded logo data nor a logo URL; embedded data is preferred
    to the URL. *)
Theorem slot_has_an_image_iff_a_source_exists :
  forall (i : nat) (p : with_logo) (h : slot_html),
    place i p = Ok h ->
    (logo_html h = None <->
     logoBase64 p = "" /\ truthy_str (logo (base p)) = false) /\
    (logoBase64 p <> "" ->
     exists left top, logo_html h = Some (logoBase64 p, left, top)) /\
    (logoBase64 p = "" -> forall u, logo (base p) = Some u -> u <> "" ->
     exists left top, logo_html h = Some (u, left, top)).
Proof.
  intros i p h. unfold place. cbv zeta.
  destruct (if (i <? 5)%nat then _ else _) as [top|ex]; cbn [bind];
    [|discriminate].
  intros [= <-]. cbn [logo_html].
  unfold or_str, truthy_str.
  destruct (String.eqb (logoBase64 p) "") eqn:Eb; cbn [negb].
  - apply String.eqb_eq in Eb.
    destruct (logo (base p)) as [u|] eqn:El.
    + destruct (String.eqb u "") eqn:Eu; cbn [negb].
      * apply String.eqb_eq in Eu. subst u.
        change (negb ("" =? "")%string) with false. cbv iota.
        split; [tauto|]. split; [tauto|].
        intros _ u0 [= <-] Hne. contradiction.
      * rewrite Eu. cbn [negb].
        split; [split; [discriminate|intros [_ H]; discriminate]|].
        split; [tauto|]. intros _ u0 [= <-] _. eauto.
    + change (negb ("" =? "")%string) with false. cbv iota.
      split; [tauto|]. split; [tauto|]. intros _ u0 H. discriminate.
  - repeat (rewrite Eb; cbn [negb]). apply String.eqb_neq in Eb.
    split; [split; [discriminate|tauto]|].
    split; [eauto|tauto].
Qed.

Lemma slot_has_an_image_iff_a_source_exists_witness :
  exists h,
    place 0 example_with_data = Ok h /\
    logoBase64 example_with_data <> "" /\
    exists left top,
      logo_html h = Some (logoBase64 example_with_data, left, top).
Proof.
  destruct (@place_ok 0%nat example_with_data) as (h & Hh & _); [lia|].
  exists h. split; [exact Hh|].
  assert (Hne : logoBase64 example_with_data <> "") by discriminate.
  split; [exact Hne|].
  exact (proj1 (proj2 (@slot_has_an_image_iff_a_source_exists
                         0%nat example_with_data h Hh)) Hne).
Defined.

(* ================================================================== *)
(** * The category loop of the ecosystem template *)
(* ================================================================== *)

(** The loop over the protocols of one category returns for protocols
    that have a name: it places as many of them as the category has
    centres, protocol [i] on centre [i], and leaves the others out. *)
Theorem fulleco_category_fills_its_centres :
  forall (centers : list (Z * Z)) (protocols : list Fulleco.protocol),
    Forall (fun p => Fulleco.name p <> "") protocols ->
    exists items,
      Fulleco.compose_from centers 0 protocols = Ok items /\
      List.length items =
        Nat.min (List.length protocols) (List.length centers) /\
      forall i p cy cx,
        nth_error protocols i = Some p ->
        nth_error centers i = Some (cy, cx) ->
        exists h,
          nth_error items i = Some h /\
          Fulleco.shown h = p /\
          Fulleco.circle_x h = cx - 375 /\
          Fulleco.circle_y h = cy - 80 /\
          Fulleco.text_x h = cx - 375 + 200 /\
          Fulleco.text_y h = cy - 65.
Proof.
  intros centers protocols Hnamed.
  destruct (fulleco_compose_from_spec centers Hnamed
              (Nat.le_0_l (List.length centers)))
    as (items & Hc & Hlen & Hnth).
  exists items. split; [exact Hc|]. rewrite Nat.sub_0_r in Hlen.
  split; [exact Hlen|].
  intros i p cy cx Hp Hcen.
  assert (Hi : (i < List.length centers)%nat).
  { apply nth_error_Some. rewrite Hcen. discriminate. }
  destruct (Hnth i p Hp Hi) as (h & Hn & Hpl). exists h.
  split; [exact Hn|]. cbn [Nat.add] in Hpl.
  unfold Fulleco.place, index in Hpl. rewrite Hcen in Hpl. cbn [bind] in Hpl.
  destruct (negb (Fulleco.logoBase64 p =? "")%string); cbn [bind] in Hpl.
  - injection Hpl as <-.
    cbn [Fulleco.shown Fulleco.circle_x Fulleco.circle_y Fulleco.text_x
         Fulleco.text_y].
    change (Fulleco.BLOCK_WIDTH / 2) with 375.
    unfold Fulleco.RADIUS, Fulleco.CIRCLE_SIZE. repeat split; lia.
  - destruct (Fulleco.name p); [discriminate|]. cbn [bind] in Hpl.
    injection Hpl as <-.
    cbn [Fulleco.shown Fulleco.circle_x Fulleco.circle_y Fulleco.text_x
         Fulleco.text_y].
    change (Fulleco.BLOCK_WIDTH / 2) with 375.
    unfold Fulleco.RADIUS, Fulleco.CIRCLE_SIZE. repeat split; lia.
Qed.

Lemma fulleco_category_fills_its_centres_witness :
  Forall (fun p => Fulleco.name p <> "") example_category /\
  exists items,
    Fulleco.compose_from (Fulleco.get_grid_centers 1500 630) 0
                         example_category = Ok items /\
    List.length items = 3%nat.
Proof.
  assert (H : Forall (fun p => Fulleco.name p <> "") example_category)
    by (repeat constructor; discriminate).
  split; [exact H|].
  destruct (@fulleco_category_fills_its_centres
              (Fulleco.get_grid_centers 1500 630) example_category H)
    as (items & Hc & Hlen & _).
  exists items. split; [exact Hc|exact Hlen].
Defined.


(* ================================================================== *)
(** * More about the formatters and the filters *)
(* ================================================================== *)

(** From one thousand up to a million millions, [format_currency] and the
    prediction-market [format_number] divide by a divisor for which the
    exact quotient value/divisor, before it is rounded to the printed
    decimals, is at least 1 and below 1000; [format_fees] does so only
    below one billion, and from one billion on its exact quotient is at
    least 1000. *)
Theorem scaled_quotient_is_between_one_and_a_thousand :
  forall v : Z,
    1000 <= v < 1000000000000 ->
    (let d := divisor_of (DuneBnbchain.format_currency (Some v)) in
     d <= v < 1000 * d) /\
    (forall prefix,
        let d := divisor_of (PredictionMarket.format_number (Some v) prefix) in
        d <= v < 1000 * d) /\
    (v < 1000000000 ->
     let d := divisor_of (format_fees (Some v)) in d <= v < 1000 * d) /\
    (1000000000 <= v ->
     let d := divisor_of (format_fees (Some v)) in 1000 * d <= v).
Proof.
  intros v Hv.
  unfold DuneBnbchain.format_currency, PredictionMarket.format_number,
    format_fees.
  split; [|split; [intros prefix|split; intros Hb]]; cbv zeta;
    repeat match goal with
           | |- context [?a <=? v] => destruct (Z.leb_spec a v)
           | |- context [v =? ?a] => destruct (Z.eqb_spec v a)
           end; cbn [divisor_of]; lia.
Qed.

Lemma scaled_quotient_is_between_one_and_a_thousand_witness :
  1000 <= 2500000 < 1000000000000 /\
  divisor_of (DuneBnbchain.format_currency (Some 2500000)) <= 2500000
    < 1000 * divisor_of (DuneBnbchain.format_currency (Some 2500000)).
Proof.
  assert (H : 1000 <= 2500000 < 1000000000000) by lia.
  split; [exact H|].
  exact (proj1 (scaled_quotient_is_between_one_and_a_thousand H)).
Defined.

(** A protocol passes the prediction-market filter exactly when its
    category is "Prediction Market" and its TVL is above 100, where the
    TVL is the Binance member of chainTvls unless that is missing, null or
    zero, in which case it is the BSC member.  A Binance TVL that is not
    zero and not above 100 excludes the protocol whatever BSC says. *)
Theorem prediction_filter_reads_binance_then_bsc :
  forall (p : protocol) (v : Z),
    let tvls := match chainTvls p with Some d => d | None => [] end in
    (prediction_metric p = Some v <->
     dict_get_default (text p) "category" "" = Some "Prediction Market" /\
     100 < v /\
     (dict_get tvls "Binance" = Some v \/
      ((dict_get tvls "Binance" = None \/ dict_get tvls "Binance" = Some 0) /\
       dict_get tvls "BSC" = Some v))) /\
    (forall b, dict_get tvls "Binance" = Some b -> b <> 0 -> b <= 100 ->
               prediction_metric p = None).
Proof.
  intros p v tvls. unfold prediction_metric. cbv zeta. fold tvls.
  destruct (pystr_eqb_spec (dict_get_default (text p) "category" "")
                           (Some "Prediction Market")) as [Hc|Hc];
    cbn [negb].
  2:{ split; [split; [discriminate|tauto]|reflexivity]. }
  unfold or_num, truthy_num.
  destruct (dict_get tvls "Binance") as [b|] eqn:Eb.
  - destruct (Z.eqb_spec b 0) as [->|Hb]; cbn [negb].
    + split; [|intros b' [= <-] Hne; congruence].
      destruct (dict_get tvls "BSC") as [c|];
        [destruct (Z.ltb_spec 100 c) as [Hlt|Hge]|]; split;
        try discriminate;
        try (intros [= <-]; split; [exact Hc|split; [lia|]];
             right; split; [right; reflexivity|reflexivity]);
        intros (_ & Hv & [E|[_ E]]); try discriminate;
        injection E as E; subst; try reflexivity; exfalso; lia.
    + split.
      * destruct (Z.ltb_spec 100 b) as [Hlt|Hge]; split;
          try discriminate;
          try (intros [= <-]; split; [exact Hc|split; [lia|]];
               left; reflexivity);
          intros (_ & Hv & [E|[[E|E] _]]); try discriminate;
          injection E as E; subst; try reflexivity; try congruence;
          exfalso; lia.
      * intros b' [= <-] _ Hle.
        destruct (Z.ltb_spec 100 b); [lia|reflexivity].
  - split; [|intros b' E; discriminate].
    destruct (dict_get tvls "BSC") as [c|];
      [destruct (Z.ltb_spec 100 c) as [Hlt|Hge]|]; split;
      try discriminate;
      try (intros [= <-]; split; [exact Hc|split; [lia|]];
           right; split; [left; reflexivity|reflexivity]);
      intros (_ & Hv & [E|[_ E]]); try discriminate;
      injection E as E; subst; try reflexivity; exfalso; lia.
Qed.

Lemma prediction_filter_reads_binance_then_bsc_witness :
  dict_get [("Binance", Some 50); ("BSC", Some 1000)] "Binance" = Some 50 /\
  prediction_metric example_small_binance = None.
Proof.
  split; [reflexivity|].
  refine (proj2 (prediction_filter_reads_binance_then_bsc
                   example_small_binance 0) 50 eq_refl _ _); lia.
Defined.

Lemma append_empty_r s : (s ++ "")%string = s.
Proof. induction s as [|a s IH]; simpl; [reflexivity|now rewrite IH]. Qed.

Lemma append_assoc s1 s2 s3 :
  ((s1 ++ s2) ++ s3)%string = (s1 ++ (s2 ++ s3))%string.
Proof. induction s1 as [|a s1 IH]; simpl; [reflexivity|now rewrite IH]. Qed.

Lemma replace_char_app c by_ s1 s2 :
  replace_char c by_ (s1 ++ s2)%string =
  (replace_char c by_ s1 ++ replace_char c by_ s2)%string.
Proof.
  induction s1 as [|a s1 IH]; simpl; [reflexivity|].
  destruct (Ascii.eqb a c); simpl; rewrite IH; [|reflexivity].
  now rewrite append_assoc.
Qed.

Lemma replace_char_absent c by_ s :
  (forall a, In a (list_ascii_of_string s) -> a <> c) ->
  replace_char c by_ s = s.
Proof.
  induction s as [|a s IH]; intros H; simpl; [reflexivity|].
  destruct (Ascii.eqb_spec a c) as [->|_].
  - exfalso. apply (H c); simpl; auto.
  - rewrite IH; [reflexivity|]. intros x Hx. apply H. simpl. auto.
Qed.

Lemma replace_char_self c s : replace_char c (String c "") s = s.
Proof.
  induction s as [|a s IH]; simpl; [reflexivity|].
  destruct (Ascii.eqb_spec a c) as [->|_]; simpl; now rewrite IH.
Qed.

(** The member read for the change of an entity: for an interval without
    the letter d it is "change_" followed by the interval, and for an
    interval "<n>d" it is "change_<n>over<n>d". *)
Theorem change_member_of_an_interval :
  forall n : string,
    (forall a, In a (list_ascii_of_string n) -> a <> "d"%char) ->
    change_key n = ("change_" ++ n)%string /\
    change_key (n ++ "d") = ("change_" ++ n ++ "over" ++ n ++ "d")%string.
Proof.
  intros n Hn. unfold change_key. rewrite !replace_char_self. split.
  - now rewrite replace_char_absent.
  - rewrite replace_char_app, replace_char_absent by exact Hn.
    simpl. now rewrite append_empty_r.
Qed.

Lemma change_member_of_an_interval_witness :
  change_key "24h" = "change_24h" /\ change_key "7d" = "change_7over7d".
Proof.
  split.
  - apply (proj1 (@change_member_of_an_interval "24h"
             ltac:(simpl; intros a [<-|[<-|[<-|[]]]]; discriminate))).
  - apply (proj2 (@change_member_of_an_interval "7"
             ltac:(simpl; intros a [<-|[]]; discriminate))).
Defined.

(* ================================================================== *)
(** * The rows extracted from the DappBay table *)
(* ================================================================== *)

Lemma extract_rows_spec rows :
  forall extracted,
    (List.length extracted <= 10)%nat ->
    Dapps.extract_rows rows extracted =
    firstn 10 (extracted ++ map Dapps.row_dapp (filter Dapps.accepts rows)).
Proof.
  induction rows as [|row rest IH]; intros acc Hacc;
    cbn [Dapps.extract_rows filter map].
  - rewrite app_nil_r. symmetry. now apply firstn_all2.
  - destruct (Nat.leb_spec 10 (List.length acc)) as [Hfull|Hroom].
    + rewrite firstn_app.
      replace (10 - List.length acc)%nat with 0%nat by lia.
      rewrite firstn_O, app_nil_r. symmetry. apply firstn_all2. lia.
    + unfold Dapps.accepts.
      destruct (Nat.ltb_spec (List.length (Dapps.cells row)) 5) as [Hc|Hc].
      * destruct (Nat.leb_spec 5 (List.length (Dapps.cells row))); [lia|].
        cbn [andb]. apply IH. exact Hacc.
      * destruct (Nat.leb_spec 5 (List.length (Dapps.cells row))); [|lia].
        cbn [andb].
        destruct (negb (Dapps.row_name row =? "")%string
                  && negb (Dapps.row_name row =? "Unknown")%string
                  && negb (Dapps.row_name row =? "---")%string).
        -- rewrite IH by (rewrite length_app; simpl; lia).
           cbn [map]. now rewrite <- app_assoc.
        -- apply IH. exact Hacc.
Qed.

(** The page script extracts the first ten rows that have at least five
    cells and a name other than "Unknown" and "---", in the order of the
    page: never more than ten, never a row without a name, and all of
    them when fewer than ten qualify. *)
Theorem extracted_rows_are_the_first_ten_named :
  forall rows : list Dapps.table_row,
    Dapps.extract_rows rows [] =
      firstn 10 (map Dapps.row_dapp (filter Dapps.accepts rows)) /\
    List.length (Dapps.extract_rows rows []) =
      Nat.min 10 (List.length (filter Dapps.accepts rows)) /\
    Forall (fun d => Dapps.name d <> "" /\ Dapps.name d <> "Unknown" /\
                     Dapps.name d <> "---")
           (Dapps.extract_rows rows []).
Proof.
  intros rows.
  assert (E : Dapps.extract_rows rows [] =
              firstn 10 (map Dapps.row_dapp (filter Dapps.accepts rows))).
  { rewrite extract_rows_spec by (simpl; lia). reflexivity. }
  split; [exact E|]. rewrite E. split.
  - now rewrite length_firstn, length_map.
  - apply Forall_forall. intros d Hd. apply In_firstn in Hd.
    apply in_map_iff in Hd. destruct Hd as (row & <- & Hrow).
    apply filter_In in Hrow. destruct Hrow as [_ Hacc].
    unfold Dapps.accepts in Hacc.
    apply andb_prop in Hacc. destruct Hacc as [Hacc H3].
    apply andb_prop in Hacc. destruct Hacc as [Hacc H2].
    apply andb_prop in Hacc. destruct Hacc as [_ H1].
    cbn [Dapps.row_dapp Dapps.name].
    apply negb_true_iff in H1, H2, H3.
    apply String.eqb_neq in H1, H2, H3. auto.
Qed.

(** Example 3 of the specification: of twelve rows nine have a name, and
    nine rows are extracted. *)
Example twelve_rows_nine_named :
  List.length example_table = 12%nat /\
  map Dapps.name (Dapps.extract_rows example_table []) =
    ["a"; "b"; "c"; "d"; "e"; "f"; "g"; "h"; "i"].
Proof. split; vm_compute; reflexivity. Qed.

(* ================================================================== *)
(** * The members that are not part of the description *)
(* ================================================================== *)

Lemma merge_invariant_members metric describe change_of slug_of lo :
  0 <= lo -> (forall p v, metric p = Some v -> lo < v) ->
  forall ps k e,
    lookup k (merge metric describe change_of slug_of ps) = Some e ->
    (exists r rest, contributing metric k ps = r :: rest /\
                    slug e = slug_of r) /\
    (exists m, In m (contributing metric k ps) /\
               metric_value metric m = max_total e /\
               change e = change_of m /\
               (name e, logo e, category e) = describe m).
Proof.
  intros Hlo Habove ps. induction ps as [|p ps IH] using rev_ind;
    intros k e He; [discriminate|].
  rewrite merged_snoc, lookup_fold_protocol in He.
  rewrite contributing_snoc.
  destruct (metric p) as [v|] eqn:Hm.
  2:{ rewrite app_nil_r. now apply IH. }
  assert (Hv : metric_value metric p = v)
    by (unfold metric_value; now rewrite Hm).
  assert (Hpos : lo < v) by eauto.
  destruct (pystr_eqb (group_key p) k).
  2:{ rewrite app_nil_r. now apply IH. }
  injection He as <-.
  pose proof (merge_invariant metric describe change_of slug_of Hlo Habove
                ps k) as Hnone.
  destruct (lookup k (merge metric describe change_of slug_of ps))
    as [e0|] eqn:E0.
  - destruct (IH k e0 E0)
      as [(r & rest & Hc & Hs) (m & Hin & Hmax & Hch & Hd)].
    rewrite Hc. split.
    + exists r, (rest ++ [p]). split; [reflexivity|].
      unfold bump. cbn [add_total max_total].
      destruct (max_total e0 <? v); [|exact Hs].
      unfold refresh. destruct (describe p) as [[n l] c]. exact Hs.
    + unfold bump. cbn [add_total max_total].
      destruct (Z.ltb_spec (max_total e0) v).
      * exists p. split; [apply in_or_app; right; now left|].
        unfold refresh. destruct (describe p) as [[n l] c]. cbn. auto.
      * exists m. split; [apply in_or_app; left; now rewrite <- Hc|].
        cbn. auto.
  - rewrite Hnone. cbn [app]. unfold bump, fresh.
    destruct (describe p) as [[n l] c] eqn:Hdp.
    cbn [add_total max_total].
    destruct (Z.ltb_spec (-1) v); [|lia].
    unfold refresh. rewrite Hdp. cbn. split.
    + exists p, []. auto.
    + exists p. auto.
Qed.

(** The change of an entity is read from a contributing record whose fees
    are the entity's max_fees, the same record that gives the name, the
    logo and the category. *)
Theorem change_is_of_the_record_that_describes :
  forall (interval : string) (protocols : list protocol) (k : pystr)
         (e : entry),
    lookup k (fees_grouped interval protocols) = Some e ->
    exists m,
      In m (contributing (fees_metric interval) k protocols) /\
      metric_value (fees_metric interval) m = max_total e /\
      change e = dict_get_default (number m) (change_key interval) 0 /\
      (name e, logo e, category e) = fees_describe m.
Proof.
  intros interval protocols k e He.
  apply merge_invariant_members with (lo := 0) in He;
    [|lia|apply fees_metric_above].
  exact (proj2 He).
Qed.

Lemma change_is_of_the_record_that_describes_witness :
  exists e m,
    lookup (Some "A") (fees_grouped "24h" example_versions) = Some e /\
    In m (contributing (fees_metric "24h") (Some "A") example_versions) /\
    metric_value (fees_metric "24h") m = max_total e.
Proof.
  pose (e := {| name := Some "large"; logo := Some ""; category := Some "N/A";
                total := 320; change := Some 0; max_total := 100;
                slug := None |}).
  assert (He : lookup (Some "A") (fees_grouped "24h" example_versions)
               = Some e) by (vm_compute; reflexivity).
  destruct (@change_is_of_the_record_that_describes
              "24h" example_versions (Some "A") e He)
    as (m & Hin & Hmax & _).
  exists e, m. auto.
Defined.

(** In the prediction-market script the slug of an entity is the slug of
    the first record folded into it; unlike the name it is not replaced
    when a later record has a larger TVL. *)
Theorem prediction_slug_is_of_the_first_record :
  forall (data : list protocol) (k : pystr) (e : entry),
    lookup k (prediction_grouped data) = Some e ->
    exists r rest,
      contributing prediction_metric k data = r :: rest /\
      slug e = Some (dict_get (text r) "slug").
Proof.
  intros data k e He.
  apply merge_invariant_members with (lo := 100) in He;
    [|lia|apply prediction_metric_above].
  exact (proj1 He).
Qed.

Lemma prediction_slug_is_of_the_first_record_witness :
  exists e r rest,
    lookup (Some "parent#m") (prediction_grouped example_markets) = Some e /\
    name e = Some "M two" /\
    contributing prediction_metric (Some "parent#m") example_markets
      = r :: rest /\
    slug e = Some (dict_get (text r) "slug").
Proof.
  pose (e := {| name := Some "M two"; logo := Some "";
                category := Some "Prediction Market";
                total := 1100; change := Some 0; max_total := 900;
                slug := Some (Some "m-v1") |}).
  assert (He : lookup (Some "parent#m") (prediction_grouped example_markets)
               = Some e) by (vm_compute; reflexivity).
  destruct (@prediction_slug_is_of_the_first_record
              example_markets (Some "parent#m") e He)
    as (r & rest & Hc & Hs).
  exists e, r, rest. repeat split; assumption.
Defined.

(* ================================================================== *)
(** * The logo loop over the DappBay rows *)
(* ================================================================== *)

(** The logo loop keeps the rows in number and order and sets logoBase64
    on every one of them; a row without a logo URL gets the empty text
    without a request being made. *)
Theorem logo_loop_sets_every_row :
  forall (http : network) (dapps : list Dapps.dapp),
    exists out,
      Dapps.fetch_logos http dapps = Ok out /\
      List.length out = List.length dapps /\
      Forall (fun d => Dapps.logoBase64 d <> None) out /\
      (forall i d, nth_error dapps i = Some d ->
                   truthy_str (Dapps.logoUrl d) = false ->
                   nth_error out i = Some (Dapps.set_logoBase64 d "")).
Proof.
  intros http dapps.
  induction dapps as [|d rest (out & Hout & Hlen & Hset & Hnone)].
  - exists []. repeat split; auto. intros [|i] d H; discriminate.
  - cbn [Dapps.fetch_logos].
    destruct (dapps_fetch_logo_ok http d) as (b & Hb).
    rewrite Hb, Hout. cbn [bind].
    exists (Dapps.set_logoBase64 d b :: out).
    split; [reflexivity|]. split; [simpl; now rewrite Hlen|]. split.
    + constructor; [discriminate|exact Hset].
    + intros [|i] d' Hd' Hu; cbn [nth_error] in *.
      * injection Hd' as <-. unfold Dapps.fetch_logo in Hb.
        rewrite Hu in Hb. cbn [bind] in Hb. injection Hb as <-.
        reflexivity.
      * now apply Hnone.
Qed.

Lemma logo_loop_sets_every_row_witness :
  let d := Dapps.row_dapp
             {| Dapps.cells := ["1"; ""; "a"; "DeFi"; "1.2K"];
                Dapps.anchor_text := None; Dapps.img := None |} in
  truthy_str (Dapps.logoUrl d) = false /\
  exists out,
    Dapps.fetch_logos example_network [d] = Ok out /\
    nth_error out 0 = Some (Dapps.set_logoBase64 d "").
Proof.
  intros d.
  assert (Hu : truthy_str (Dapps.logoUrl d) = false) by reflexivity.
  split; [exact Hu|].
  destruct (logo_loop_sets_every_row example_network [d])
    as (out & Hout & _ & _ & Hnone).
  exists out. split; [exact Hout|].
  exact (Hnone 0%nat d eq_refl Hu).
Defined.
